(** * BRC-78 message encryption and the wallet codecs of the bsv SDK

    A shallow embedding of [bsv/encrypted_message.py] together with the
    byte codecs exercised by [tests/test_utils.py].

    - Python [bytes] are lists of [Init.Byte.byte]; integers are [Z].
    - Exceptions are values of [exn]; code that can raise returns a
      [result].
    - [randbytes] threads an explicit generator state.
    - The key classes of [bsv/keys.py], the AES-GCM cipher of Cryptodome
      and the random source are collaborators of the module; they appear
      as interfaces ([KeyOps], [Aead], [Rng]) with their contracts
      ([KeyLaws], [AeadLaws], [RngLaws]). *)

From Stdlib Require Import ZArith String Ascii Lia Bool List.
From Stdlib Require Strings.Byte.
From coqutil Require Import Byte Word.LittleEndianList.
Import ListNotations.

Local Open Scope string_scope.
Local Open Scope Z_scope.
Local Open Scope list_scope.

(** ** Python values *)

Definition bytes : Type := list byte.

Definition bytes_eq_dec : forall a b : bytes, {a = b} + {a <> b} :=
  list_eq_dec Byte.byte_eq_dec.

(** Exception classes that the modelled code and its collaborators
    raise.  All of them derive from Python's [Exception]. *)
Inductive exn_kind : Set :=
| ValueError
| OverflowError
| TypeError
| OtherError (name : string).

(** An exception object: its class and the text [str(e)] gives back;
    [ExnFrom] is an exception raised with [raise ... from cause], which
    sets [__cause__]. *)
Inductive exn : Set :=
| Exn (kind : exn_kind) (msg : string)
| ExnFrom (kind : exn_kind) (msg : string) (cause : exn).

Definition exn_kind_of (e : exn) : exn_kind :=
  match e with Exn k _ | ExnFrom k _ _ => k end.

Definition exn_str (e : exn) : string :=
  match e with Exn _ m | ExnFrom _ m _ => m end.

Definition exn_cause (e : exn) : option exn :=
  match e with Exn _ _ => None | ExnFrom _ _ c => Some c end.

Inductive result (A : Type) : Type :=
| Ok (a : A)
| Raise (e : exn).

Arguments Ok {A} a.
Arguments Raise {A} e.

Definition bind {A B : Type} (r : result A) (k : A -> result B) : result B :=
  match r with
  | Ok a => k a
  | Raise e => Raise e
  end.

Declare Scope result_scope.
Delimit Scope result_scope with result.
Notation "x <- r ;; k" := (bind r (fun x => k))
  (at level 61, r at next level, right associativity) : result_scope.
Notation "' p <- r ;; k" := (bind r (fun x => let p := x in k))
  (at level 61, p pattern, r at next level, right associativity) : result_scope.

(** [try: body except Exception as e: handler e] *)
Definition try_except {A : Type} (body : result A) (handler : exn -> result A)
  : result A :=
  match body with
  | Ok a => Ok a
  | Raise e => handler e
  end.

(** ** Slicing

    [py_slice lo hi l] is Python's [l[lo:hi]] with step 1: a negative
    index counts from the end, and both ends are clamped to the
    sequence. *)

Definition py_index (len i : Z) : Z :=
  if i <? 0 then Z.max 0 (len + i) else Z.min i len.

Definition py_slice {A : Type} (lo hi : option Z) (l : list A) : list A :=
  let len := Z.of_nat (length l) in
  let start := match lo with None => 0 | Some i => py_index len i end in
  let stop := match hi with None => len | Some j => py_index len j end in
  firstn (Z.to_nat (stop - start)) (skipn (Z.to_nat start) l).

(** ** [bytes.hex] and [base64.b64encode] *)

Definition hex_digits : string := "0123456789abcdef".

Definition hex_digit (z : Z) : ascii :=
  match String.get (Z.to_nat z) hex_digits with
  | Some c => c
  | None => "?"%char
  end.

Fixpoint hex (bs : bytes) : string :=
  match bs with
  | [] => ""
  | b :: rest =>
      String (hex_digit (byte.unsigned b / 16))
        (String (hex_digit (byte.unsigned b mod 16)) (hex rest))
  end.

Definition b64_alphabet : string :=
  "ABCDEFGHIJKLMNOPQRSTUVWXYZabcdefghijklmnopqrstuvwxyz0123456789+/".

Definition b64_char (z : Z) : ascii :=
  match String.get (Z.to_nat z) b64_alphabet with
  | Some c => c
  | None => "="%char
  end.

(** Standard alphabet, ["="] padding, three input bytes per four
    characters. *)
Fixpoint b64encode (bs : bytes) : string :=
  match bs with
  | [] => ""
  | [a] =>
      let x := byte.unsigned a in
      String (b64_char (x / 4)) (String (b64_char (x mod 4 * 16)) "==")
  | [a; b] =>
      let x := byte.unsigned a in
      let y := byte.unsigned b in
      String (b64_char (x / 4))
        (String (b64_char (x mod 4 * 16 + y / 16))
           (String (b64_char (y mod 16 * 4)) "="))
  | a :: b :: c :: rest =>
      let x := byte.unsigned a in
      let y := byte.unsigned b in
      let z := byte.unsigned c in
      String (b64_char (x / 4))
        (String (b64_char (x mod 4 * 16 + y / 16))
           (String (b64_char (y mod 16 * 4 + z / 64))
              (String (b64_char (z mod 64)) (b64encode rest))))
  end.

(** ** Collaborators *)

(** [bsv.utils.randbytes]: the generator state is explicit. *)
Class Rng : Type := {
  rng : Type;
  randbytes : nat -> rng -> bytes * rng
}.

(** The methods of [bsv.keys.PrivateKey] and [bsv.keys.PublicKey] that
    [encrypted_message.py] calls.  [derive_child] and
    [derive_shared_secret] exist on both classes, so each has a
    private-key and a public-key variant. *)
Class KeyOps : Type := {
  PrivateKey : Type;
  PublicKey : Type;
  (* PrivateKey.public_key() *)
  public_key : PrivateKey -> PublicKey;
  (* PublicKey.serialize() *)
  serialize : PublicKey -> bytes;
  (* PublicKey.hex() *)
  pubkey_hex : PublicKey -> string;
  (* PublicKey(bytes) *)
  PublicKey_new : bytes -> result PublicKey;
  (* PrivateKey.derive_child(public_key, invoice_number) *)
  priv_derive_child : PrivateKey -> PublicKey -> string -> result PrivateKey;
  (* PublicKey.derive_child(private_key, invoice_number) *)
  pub_derive_child : PublicKey -> PrivateKey -> string -> result PublicKey;
  (* PrivateKey.derive_shared_secret(public_key) *)
  priv_derive_shared_secret : PrivateKey -> PublicKey -> result bytes;
  (* PublicKey.derive_shared_secret(private_key) *)
  pub_derive_shared_secret : PublicKey -> PrivateKey -> result bytes
}.

(** [AES.new(key, AES.MODE_GCM, iv)] followed by [encrypt_and_digest]
    or [decrypt_and_verify]. *)
Class Aead : Type := {
  gcm_encrypt_and_digest : bytes -> bytes -> bytes -> result (bytes * bytes);
  gcm_decrypt_and_verify : bytes -> bytes -> bytes -> bytes -> result bytes
}.

(** Computations that draw random bytes and may raise. *)
Definition M {R : Rng} (A : Type) : Type := rng -> result A * rng.

Definition ret {R : Rng} {A : Type} (a : A) : M A := fun g => (Ok a, g).

Definition lift {R : Rng} {A : Type} (r : result A) : M A := fun g => (r, g).

Definition draw {R : Rng} (n : nat) : M bytes :=
  fun g => let (bs, g') := randbytes n g in (Ok bs, g').

Definition bindM {R : Rng} {A B : Type} (m : M A) (k : A -> M B) : M B :=
  fun g =>
    match m g with
    | (Ok a, g') => k a g'
    | (Raise e, g') => (Raise e, g')
    end.

Declare Scope rng_scope.
Delimit Scope rng_scope with rng.
Notation "x <- m ;; k" := (bindM m (fun x => k))
  (at level 61, m at next level, right associativity) : rng_scope.
Notation "' p <- m ;; k" := (bindM m (fun x => let p := x in k))
  (at level 61, p pattern, m at next level, right associativity) : rng_scope.

(** ** Contracts of the collaborators *)

Class RngLaws (R : Rng) : Prop := {
  randbytes_length : forall n g, length (fst (randbytes n g)) = n
}.

(** What [encrypted_message.py] relies on from [bsv/keys.py]:
    - a public key serializes to the 33-byte compressed form, and the
      constructor reads that form back;
    - derivation and key agreement succeed on well-formed keys, and a
      shared secret is a 33-byte compressed point;
    - the child of a private key and the child of its public key form a
      matching pair when each is derived against the other party with
      the same invoice number;
    - key agreement is symmetric. *)
Class KeyLaws (K : KeyOps) : Prop := {
  serialize_length : forall P : PublicKey, length (serialize P) = 33%nat;
  PublicKey_new_serialize : forall P : PublicKey,
    PublicKey_new (serialize P) = Ok P;
  priv_derive_child_ok : forall (a : PrivateKey) (P : PublicKey) inv,
    exists child, priv_derive_child a P inv = Ok child;
  pub_derive_child_ok : forall (P : PublicKey) (a : PrivateKey) inv,
    exists child, pub_derive_child P a inv = Ok child;
  shared_secret_ok : forall (a : PrivateKey) (P : PublicKey),
    exists shared,
      priv_derive_shared_secret a P = Ok shared /\ length shared = 33%nat;
  child_pair : forall (a b : PrivateKey) inv child,
    priv_derive_child a (public_key b) inv = Ok child ->
    pub_derive_child (public_key a) b inv = Ok (public_key child);
  shared_secret_sym : forall a b : PrivateKey,
    pub_derive_shared_secret (public_key a) b
    = priv_derive_shared_secret a (public_key b)
}.

(** AES-256-GCM as used here: with a 32-byte key and a 32-byte nonce,
    encryption succeeds, keeps the length of the message, produces a
    16-byte tag, and decryption with the same key and nonce restores
    the message. *)
Class AeadLaws (C : Aead) : Prop := {
  gcm_encrypt_ok : forall key iv m,
    length key = 32%nat -> length iv = 32%nat ->
    exists ct tag,
      gcm_encrypt_and_digest key iv m = Ok (ct, tag) /\
      length ct = length m /\ length tag = 16%nat;
  gcm_decrypt_encrypt : forall key iv m ct tag,
    gcm_encrypt_and_digest key iv m = Ok (ct, tag) ->
    gcm_decrypt_and_verify key iv ct tag = Ok m
}.

(** ** bsv/encrypted_message.py *)

Section EncryptedMessage.
Context {R : Rng} {K : KeyOps} {C : Aead}.

Definition aes_gcm_encrypt (key message : bytes) : M bytes :=
  (iv <- draw 32 ;;
   '(encrypted, auth_tag) <- lift (gcm_encrypt_and_digest key iv message) ;;
   ret (iv ++ encrypted ++ auth_tag))%rng.

Definition aes_gcm_decrypt (key message : bytes) : result bytes :=
  let iv := py_slice None (Some 32) message in
  let encrypted := py_slice (Some 32) (Some (-16)) message in
  let auth_tag := py_slice (Some (-16)) None message in
  gcm_decrypt_and_verify key iv encrypted auth_tag.

Definition VERSION : bytes := [Byte.x42; Byte.x42; Byte.x10; Byte.x33].

Definition encrypt (message : bytes) (sender : PrivateKey)
    (recipient : PublicKey) : M bytes :=
  (key_id <- draw 32 ;;
   let key_id_base64 := b64encode key_id in
   let invoice_number := ("2-message encryption-" ++ key_id_base64)%string in
   sender_child <- lift (priv_derive_child sender recipient invoice_number) ;;
   recipient_child <- lift (pub_derive_child recipient sender invoice_number) ;;
   shared_secret <- lift (priv_derive_shared_secret sender_child recipient_child) ;;
   let symmetric_key := py_slice (Some 1) None shared_secret in
   encrypted <- aes_gcm_encrypt symmetric_key message ;;
   ret (VERSION ++ serialize (public_key sender) ++ serialize recipient
          ++ key_id ++ encrypted))%rng.

(** The [ValueError] of line 55. *)
Definition version_mismatch (version : bytes) : exn :=
  Exn ValueError
    ("message version mismatch, expected " ++ hex VERSION
       ++ " but got " ++ hex version)%string.

(** The [ValueError] of line 59. *)
Definition recipient_mismatch (recipient : PrivateKey)
    (recipient_pubkey : bytes) : exn :=
  let _expected := pubkey_hex (public_key recipient) in
  let _actual := hex recipient_pubkey in
  Exn ValueError
    ("recipient public key mismatch, expected " ++ _expected
       ++ " but got " ++ _actual)%string.

(** The [ValueError] of line 69, raised [from e]. *)
Definition decrypt_failure (e : exn) : exn :=
  ExnFrom ValueError ("failed to decrypt message: " ++ exn_str e)%string e.

(** The body of the [try] statement, lines 50 to 67. *)
Definition decrypt_body (message : bytes) (recipient : PrivateKey)
  : result bytes :=
  let version := py_slice None (Some 4) message in
  let sender_pubkey := py_slice (Some 4) (Some 37) message in
  let recipient_pubkey := py_slice (Some 37) (Some 70) message in
  let key_id := py_slice (Some 70) (Some 102) message in
  let encrypted := py_slice (Some 102) None message in
  if bytes_eq_dec version VERSION then
    if bytes_eq_dec recipient_pubkey (serialize (public_key recipient)) then
      let key_id_base64 := b64encode key_id in
      let invoice_number := ("2-message encryption-" ++ key_id_base64)%string in
      (sender <- PublicKey_new sender_pubkey ;;
       sender_child <- pub_derive_child sender recipient invoice_number ;;
       recipient_child <- priv_derive_child recipient sender invoice_number ;;
       shared_secret <- pub_derive_shared_secret sender_child recipient_child ;;
       let symmetric_key := py_slice (Some 1) None shared_secret in
       aes_gcm_decrypt symmetric_key encrypted)%result
    else Raise (recipient_mismatch recipient recipient_pubkey)
  else Raise (version_mismatch version).

Definition decrypt (message : bytes) (recipient : PrivateKey) : result bytes :=
  try_except (decrypt_body message recipient)
    (fun e => Raise (decrypt_failure e)).

End EncryptedMessage.

(** The invoice number both operations build from the key id. *)
Definition invoice_of (key_id : bytes) : string :=
  ("2-message encryption-" ++ b64encode key_id)%string.


(** ** Stages of [decrypt] and the key both sides agree on *)

Section DecryptStages.
Context {K : KeyOps} {C : Aead}.

(** The stages of the [try] body at which an exception can arise. *)
Inductive stage_failure (message : bytes) (recipient : PrivateKey)
  : exn -> Prop :=
| fail_version :
    py_slice None (Some 4) message <> VERSION ->
    stage_failure message recipient
      (version_mismatch (py_slice None (Some 4) message))
| fail_recipient :
    py_slice None (Some 4) message = VERSION ->
    py_slice (Some 37) (Some 70) message <> serialize (public_key recipient) ->
    stage_failure message recipient
      (recipient_mismatch recipient (py_slice (Some 37) (Some 70) message))
| fail_parse e :
    py_slice None (Some 4) message = VERSION ->
    py_slice (Some 37) (Some 70) message = serialize (public_key recipient) ->
    PublicKey_new (py_slice (Some 4) (Some 37) message) = Raise e ->
    stage_failure message recipient e
| fail_sender_child sender e :
    py_slice None (Some 4) message = VERSION ->
    py_slice (Some 37) (Some 70) message = serialize (public_key recipient) ->
    PublicKey_new (py_slice (Some 4) (Some 37) message) = Ok sender ->
    pub_derive_child sender recipient
      (invoice_of (py_slice (Some 70) (Some 102) message)) = Raise e ->
    stage_failure message recipient e
| fail_recipient_child sender sc e :
    py_slice None (Some 4) message = VERSION ->
    py_slice (Some 37) (Some 70) message = serialize (public_key recipient) ->
    PublicKey_new (py_slice (Some 4) (Some 37) message) = Ok sender ->
    pub_derive_child sender recipient
      (invoice_of (py_slice (Some 70) (Some 102) message)) = Ok sc ->
    priv_derive_child recipient sender
      (invoice_of (py_slice (Some 70) (Some 102) message)) = Raise e ->
    stage_failure message recipient e
| fail_shared_secret sender sc rc e :
    py_slice None (Some 4) message = VERSION ->
    py_slice (Some 37) (Some 70) message = serialize (public_key recipient) ->
    PublicKey_new (py_slice (Some 4) (Some 37) message) = Ok sender ->
    pub_derive_child sender recipient
      (invoice_of (py_slice (Some 70) (Some 102) message)) = Ok sc ->
    priv_derive_child recipient sender
      (invoice_of (py_slice (Some 70) (Some 102) message)) = Ok rc ->
    pub_derive_shared_secret sc rc = Raise e ->
    stage_failure message recipient e
| fail_aead sender sc rc ss e :
    py_slice None (Some 4) message = VERSION ->
    py_slice (Some 37) (Some 70) message = serialize (public_key recipient) ->
    PublicKey_new (py_slice (Some 4) (Some 37) message) = Ok sender ->
    pub_derive_child sender recipient
      (invoice_of (py_slice (Some 70) (Some 102) message)) = Ok sc ->
    priv_derive_child recipient sender
      (invoice_of (py_slice (Some 70) (Some 102) message)) = Ok rc ->
    pub_derive_shared_secret sc rc = Ok ss ->
    aes_gcm_decrypt (py_slice (Some 1) None ss)
      (py_slice (Some 102) None message) = Raise e ->
    stage_failure message recipient e.

(** The symmetric key as the protocol describes it for the sender:
    [shared[1:]] of the shared secret of the two child keys. *)
Definition sender_symmetric_key (sender : PrivateKey) (recipient : PublicKey)
    (key_id : bytes) : result bytes :=
  (sender_child <- priv_derive_child sender recipient (invoice_of key_id) ;;
   recipient_child <- pub_derive_child recipient sender (invoice_of key_id) ;;
   shared <- priv_derive_shared_secret sender_child recipient_child ;;
   Ok (py_slice (Some 1) None shared))%result.

(** The same key as the recipient rebuilds it from the sender's public
    key and the key id of the envelope. *)
Definition recipient_symmetric_key (sender : PublicKey) (recipient : PrivateKey)
    (key_id : bytes) : result bytes :=
  (sender_child <- pub_derive_child sender recipient (invoice_of key_id) ;;
   recipient_child <- priv_derive_child recipient sender (invoice_of key_id) ;;
   shared <- pub_derive_shared_secret sender_child recipient_child ;;
   Ok (py_slice (Some 1) None shared))%result.

End DecryptStages.

(** What of a shared secret reaches the cipher: [shared[1:]], all but
    its first byte. *)
Definition tail_of (r : result bytes) : result bytes :=
  (shared <- r ;; Ok (py_slice (Some 1) None shared))%result.

(** [with_secrets K f h] is [K] with the two [derive_shared_secret]
    methods replaced. *)
Definition with_secrets (K : KeyOps)
    (f : @PrivateKey K -> @PublicKey K -> result bytes)
    (h : @PublicKey K -> @PrivateKey K -> result bytes) : KeyOps := {|
  PrivateKey := @PrivateKey K;
  PublicKey := @PublicKey K;
  public_key := @public_key K;
  serialize := @serialize K;
  pubkey_hex := @pubkey_hex K;
  PublicKey_new := @PublicKey_new K;
  priv_derive_child := @priv_derive_child K;
  pub_derive_child := @pub_derive_child K;
  priv_derive_shared_secret := f;
  pub_derive_shared_secret := h
|}.

(** The envelope of the data model, field by field. *)
Definition envelope_of (sender_pub recipient_pub key_id iv ciphertext
    auth_tag : bytes) : bytes :=
  VERSION ++ sender_pub ++ recipient_pub ++ key_id ++ iv ++ ciphertext
    ++ auth_tag.

(** ** A small instance of the collaborators

    Keys live in the additive group of residues modulo 256 with
    generator 3; the cipher shifts every byte by a pad derived from key
    and nonce and authenticates with a 16-byte checksum.  The instance
    shows that the contracts above can be met together and gives
    concrete runs of [encrypt] and [decrypt]. *)

Module Toy.

Definition G : Z := 3.

#[export] Instance toy_rng : Rng := {
  rng := Z;
  randbytes := fun n g => (repeat (byte.of_Z g) n, g + 1)
}.

(** Compressed form of a point: parity prefix and 32-byte big-endian
    coordinate. *)
Definition point_bytes (P : byte) : bytes :=
  Byte.x02 :: repeat Byte.x00 31 ++ [P].

Definition parse_point (bs : bytes) : result byte :=
  match bs with
  | p :: rest =>
      if bytes_eq_dec (p :: firstn 31 rest) (Byte.x02 :: repeat Byte.x00 31)
      then match skipn 31 rest with
           | [P] => Ok P
           | _ => Raise (Exn ValueError "invalid public key")
           end
      else Raise (Exn ValueError "invalid public key")
  | [] => Raise (Exn ValueError "invalid public key")
  end.

Definition ecdh (a P : byte) : byte :=
  byte.of_Z (byte.unsigned a * byte.unsigned P).

Definition mac (secret : bytes) (invoice_number : string) : Z :=
  le_combine secret + Z.of_nat (String.length invoice_number).

Definition child_offset (a P : byte) (invoice_number : string) : Z :=
  mac (point_bytes (ecdh a P)) invoice_number.

#[export] Instance toy_keys : KeyOps := {
  PrivateKey := byte;
  PublicKey := byte;
  public_key := fun a => byte.of_Z (byte.unsigned a * G);
  serialize := point_bytes;
  pubkey_hex := fun P => hex (point_bytes P);
  PublicKey_new := parse_point;
  priv_derive_child := fun a P inv =>
    Ok (byte.of_Z (byte.unsigned a + child_offset a P inv));
  pub_derive_child := fun P a inv =>
    Ok (byte.of_Z (byte.unsigned P + child_offset a P inv * G));
  priv_derive_shared_secret := fun a P => Ok (point_bytes (ecdh a P));
  pub_derive_shared_secret := fun P a => Ok (point_bytes (ecdh a P))
}.

(** The pad that the cipher adds to every byte. *)
Definition pad (key iv : bytes) : Z :=
  byte.unsigned (hd Byte.x00 key) + byte.unsigned (hd Byte.x00 iv).

Definition shift (k : Z) (b : byte) : byte := byte.of_Z (byte.unsigned b + k).

Definition byte_sum (bs : bytes) : Z :=
  fold_right (fun b acc => byte.unsigned b + acc) 0 bs.

Definition checksum (key iv ct : bytes) : bytes :=
  repeat (byte.of_Z (byte_sum key + byte_sum iv + byte_sum ct)) 16.

Definition key_size_ok (key : bytes) : bool :=
  (length key =? 16)%nat || (length key =? 24)%nat || (length key =? 32)%nat.

#[export] Instance toy_aead : Aead := {
  gcm_encrypt_and_digest := fun key iv m =>
    if key_size_ok key then
      let ct := map (shift (pad key iv)) m in
      Ok (ct, checksum key iv ct)
    else Raise (Exn ValueError "Incorrect AES key length");
  gcm_decrypt_and_verify := fun key iv ct tag =>
    if key_size_ok key then
      if bytes_eq_dec tag (checksum key iv ct)
      then Ok (map (shift (- pad key iv)) ct)
      else Raise (Exn ValueError "MAC check failed")
    else Raise (Exn ValueError "Incorrect AES key length")
}.

End Toy.

(** ** Sample values for the small instance *)

Module Samples.

(** "hi", from sender key 7 to the holder of key 11. *)
Definition message : bytes := [Byte.x68; Byte.x69].
Definition A_priv : @PrivateKey Toy.toy_keys := Byte.x07.
Definition B_priv : @PrivateKey Toy.toy_keys := Byte.x0b.
Definition C_priv : @PrivateKey Toy.toy_keys := Byte.x0c.

(** The envelope [encrypt] builds for it from generator state 5. *)
Definition envelope : bytes :=
  envelope_of (Toy.point_bytes Byte.x15) (Toy.point_bytes Byte.x21)
    (repeat Byte.x05 32) (repeat Byte.x06 32) [Byte.x6e; Byte.x6f]
    (repeat Byte.x41 16).

(** The same envelope with one ciphertext bit flipped. *)
Definition tampered : bytes :=
  envelope_of (Toy.point_bytes Byte.x15) (Toy.point_bytes Byte.x21)
    (repeat Byte.x05 32) (repeat Byte.x06 32) [Byte.x6e; Byte.x6e]
    (repeat Byte.x41 16).

(** The same envelope with a sender key that is not a compressed
    point. *)
Definition bad_sender : bytes :=
  envelope_of (repeat Byte.xff 33) (Toy.point_bytes Byte.x21)
    (repeat Byte.x05 32) (repeat Byte.x06 32) [Byte.x6e; Byte.x6f]
    (repeat Byte.x41 16).

(** An input whose version field reads 42 42 10 34. *)
Definition bad_version : bytes := [Byte.x42; Byte.x42; Byte.x10; Byte.x34].

(** The sample keys with key agreement out of order. *)
Definition no_agreement : exn := Exn ValueError "invalid counterparty point".

Definition broken_keys : KeyOps :=
  with_secrets Toy.toy_keys (fun _ _ => Raise no_agreement)
    (fun _ _ => Raise no_agreement).

End Samples.


(** ** Codecs of bsv/utils.py

    [bsv/utils.py] is not among the sources; only its tests are.  The
    codecs are therefore written from the specification, and the
    vectors of [tests/test_utils.py] are checked against them. *)

Inductive byteorder : Set := big | little.

(** Modelled from the spec: [encode_uint] of bsv/utils.py (§4.1).
    Fixed-width encoding of an unsigned integer; a value that is
    negative or does not fit fails with the spec's RangeError, which is
    Python's [OverflowError]. *)
Definition encode_uint (n : Z) (width : nat) (order : byteorder)
  : result bytes :=
  if n <? 0 then
    Raise (Exn OverflowError "can't convert negative int to unsigned")
  else if 2 ^ (8 * Z.of_nat width) <=? n then
    Raise (Exn OverflowError "int too big to convert")
  else
    Ok (match order with
        | little => le_split width n
        | big => rev (le_split width n)
        end).

(** Modelled from the spec: the inverse of [encode_uint] (§4.1). *)
Definition decode_uint (bs : bytes) (order : byteorder) : Z :=
  match order with
  | little => le_combine bs
  | big => le_combine (rev bs)
  end.

(** Modelled from the spec: [encode_varint] of bsv/utils.py (§4.1), the
    CompactSize rule: [n < 0xfd] gives one byte; [n <= 0xffff] gives
    0xfd and two little-endian bytes; [n <= 0xffffffff] gives 0xfe and
    four; anything else gives 0xff and eight.  Range errors are those
    of the fixed-width encoder. *)
Definition encode_varint (n : Z) : result bytes :=
  if n <? 0xfd then encode_uint n 1 little
  else if n <=? 0xffff then
    (payload <- encode_uint n 2 little ;; Ok (Byte.xfd :: payload))%result
  else if n <=? 0xffffffff then
    (payload <- encode_uint n 4 little ;; Ok (Byte.xfe :: payload))%result
  else
    (payload <- encode_uint n 8 little ;; Ok (Byte.xff :: payload))%result.

(** *** DER signatures *)

(** Modelled from the spec: the curve-order constant [n] (§9),
    [curve.n] of bsv/curve.py; its value is the order of the group of
    secp256k1. *)
Definition curve_n : Z :=
  0xFFFFFFFFFFFFFFFFFFFFFFFFFFFFFFFEBAAEDCE6AF48A03BBFD25E8CD0364141.

(** Number of bytes of the shortest big-endian form of a positive
    integer. *)
Definition byte_length (x : Z) : nat := Z.to_nat (Z.log2 x / 8 + 1).

(** Modelled from the spec: the "canonical minimal big-endian
    encoding" of an integer (§4.3). *)
Definition minimal_be (x : Z) : bytes := rev (le_split (byte_length x) x).

Definition top_bit_set (bs : bytes) : bool :=
  match bs with
  | b :: _ => 0x80 <=? byte.unsigned b
  | [] => false
  end.

(** Modelled from the spec: the INTEGER of the DER encoder (§4.3):
    minimal big-endian content, prefixed with 0x00 when its top bit is
    set, behind tag 0x02 and the content length. *)
Definition der_integer (x : Z) : bytes :=
  let content := minimal_be x in
  let content := if top_bit_set content then Byte.x00 :: content else content in
  Byte.x02 :: byte.of_Z (Z.of_nat (length content)) :: content.

(** Modelled from the spec: low-s canonicalization (§4.3): if
    [s > n/2], substitute [n - s]. *)
Definition low_s (n s : Z) : Z := if n / 2 <? s then n - s else s.

(** Modelled from the spec: [serialize_der] of bsv/utils.py (§4.3), a
    SEQUENCE of the two INTEGERs [r] and the low form of [s]. *)
Definition serialize_der (n : Z) (signature : Z * Z) : bytes :=
  let (r, s) := signature in
  let s := low_s n s in
  let body := der_integer r ++ der_integer s in
  Byte.x30 :: byte.of_Z (Z.of_nat (length body)) :: body.

Definition invalid_der : exn := Exn ValueError "invalid DER encoded".

(** Modelled from the spec: one INTEGER of the DER decoder (§4.3):
    tag, length, and exactly that many content bytes; gives the value
    and the bytes after it. *)
Definition parse_der_integer (bs : bytes) : option (Z * bytes) :=
  match bs with
  | tag :: len :: rest =>
      let l := Z.to_nat (byte.unsigned len) in
      if Byte.eqb tag Byte.x02 && (l <=? length rest)%nat
      then Some (decode_uint (firstn l rest) big, skipn l rest)
      else None
  | _ => None
  end.

(** Modelled from the spec: [deserialize_der] of bsv/utils.py (§4.3),
    a strict parser: the SEQUENCE tag and length and both INTEGER tags
    and lengths must match the bytes consumed exactly; any mismatch,
    the empty input included, is the spec's FormatError
    ("invalid DER encoded"). *)
Definition deserialize_der (bs : bytes) : result (Z * Z) :=
  match bs with
  | tag :: len :: body =>
      if Byte.eqb tag Byte.x30
         && (Z.of_nat (length body) =? byte.unsigned len)
      then
        match parse_der_integer body with
        | Some (r, rest) =>
            match parse_der_integer rest with
            | Some (s, []) => Ok (r, s)
            | _ => Raise invalid_der
            end
        | None => Raise invalid_der
        end
      else Raise invalid_der
  | _ => Raise invalid_der
  end.

(** *** Recoverable signatures *)

(** Modelled from the spec: the marker byte of the compact form
    (§4.3): [27 + recovery_id + (4 if compressed else 0)]. *)
Definition recovery_marker (recovery_id : Z) (compressed : bool) : Z :=
  27 + recovery_id + (if compressed then 4 else 0).

Definition invalid_recoverable : exn :=
  Exn ValueError "invalid recoverable signature".

(** Modelled from the spec: [serialize_recoverable] of bsv/utils.py
    (§4.3): marker byte, then [r] and [s] as 32 big-endian bytes each.
    The serializer gets the triple alone (tests/test_utils.py, lines
    127 and 137) and the compression flag is "carried alongside, not
    inside" these bytes (§3), so the marker is [27 + recovery_id]. *)
Definition serialize_recoverable (signature : Z * Z * Z) : result bytes :=
  let '(r, s, recovery_id) := signature in
  if (0 <=? recovery_id) && (recovery_id <=? 3) then
    (r_bytes <- encode_uint r 32 big ;;
     s_bytes <- encode_uint s 32 big ;;
     Ok (byte.of_Z (recovery_marker recovery_id false)
           :: r_bytes ++ s_bytes))%result
  else Raise invalid_recoverable.

(** Modelled from the spec: the split of the 65-byte compact form
    (§4.3): the marker must lie in 27..34 and yields the recovery id
    and the compression flag. *)
Definition split_compact (raw : bytes) : result (Z * Z * Z * bool) :=
  match raw with
  | marker :: rest =>
      let m := byte.unsigned marker in
      if (length raw =? 65)%nat && (27 <=? m) && (m <=? 34) then
        let compressed := 31 <=? m in
        let recovery_id := if compressed then m - 31 else m - 27 in
        Ok (decode_uint (firstn 32 rest) big,
            decode_uint (skipn 32 rest) big, recovery_id, compressed)
      else Raise invalid_recoverable
  | [] => Raise invalid_recoverable
  end.

(** Modelled from the spec: [deserialize_recoverable] of bsv/utils.py
    (§4.3, §8). *)
Definition deserialize_recoverable (raw : bytes) : result (Z * Z * Z) :=
  ('(r, s, recovery_id, _) <- split_compact raw ;;
   Ok (r, s, recovery_id))%result.

(** *** Base64 text *)

Fixpoint index_of (c : ascii) (s : string) (i : Z) : option Z :=
  match s with
  | EmptyString => None
  | String d rest => if Ascii.eqb c d then Some i else index_of c rest (i + 1)
  end.

Definition b64_index (c : ascii) : option Z := index_of c b64_alphabet 0.

Definition b64_error : exn :=
  Exn (OtherError "binascii.Error") "Incorrect padding".

Definition is_pad (c : ascii) : bool := Ascii.eqb c "="%char.

Definition is_empty (s : string) : bool :=
  match s with EmptyString => true | _ => false end.

(** [base64.b64decode] on well-formed text: four characters per group,
    padding only in the last one. *)
Fixpoint b64decode (s : string) : result bytes :=
  match s with
  | EmptyString => Ok []
  | String c1 (String c2 (String c3 (String c4 rest))) =>
      match b64_index c1, b64_index c2 with
      | Some v1, Some v2 =>
          let b1 := byte.of_Z (v1 * 4 + v2 / 16) in
          match b64_index c3, b64_index c4 with
          | Some v3, Some v4 =>
              (tail <- b64decode rest ;;
               Ok (b1 :: byte.of_Z (v2 mod 16 * 16 + v3 / 4)
                      :: byte.of_Z (v3 mod 4 * 64 + v4) :: tail))%result
          | Some v3, None =>
              if is_pad c4 && is_empty rest
              then Ok [b1; byte.of_Z (v2 mod 16 * 16 + v3 / 4)]
              else Raise b64_error
          | None, _ =>
              if is_pad c3 && is_pad c4 && is_empty rest
              then Ok [b1]
              else Raise b64_error
          end
      | _, _ => Raise b64_error
      end
  | _ => Raise b64_error
  end.

(** Modelled from the spec: [stringify] of bsv/utils.py (§4.3): the
    base64 text of marker, [r] and [s].  It is called with the
    serialized signature and the compression flag
    (tests/test_utils.py, lines 129 and 139), so this is where the flag
    enters the marker: [27 + recovery_id + (4 if compressed else 0)]. *)
Definition stringify (serialized : bytes) (compressed : bool)
  : result string :=
  ('(_, _, recovery_id, _) <- split_compact serialized ;;
   Ok (b64encode (byte.of_Z (recovery_marker recovery_id compressed)
                    :: tl serialized)))%result.

(** Modelled from the spec: [unstringify] of bsv/utils.py (§4.3):
    base64-decode, then the compact-form split of the marker into
    recovery id and compression flag.  The bytes it returns are those
    of the serializer (tests/test_utils.py, lines 125 to 127 and 135 to
    137), so the flag is taken out of the marker and returned beside
    them. *)
Definition unstringify (text : string) : result (bytes * bool) :=
  (raw <- b64decode text ;;
   '(_, _, recovery_id, compressed) <- split_compact raw ;;
   Ok (byte.of_Z (recovery_marker recovery_id false) :: tl raw,
       compressed))%result.

(** ** Slices of concatenations *)

Section Slices.
Context {A : Type}.
Implicit Types l a b c : list A.

Lemma py_slice_nonneg (i j : Z) l :
  0 <= i -> 0 <= j ->
  py_slice (Some i) (Some j) l
  = firstn (Z.to_nat j - Z.to_nat i) (skipn (Z.to_nat i) l).
Proof.
  intros Hi Hj. unfold py_slice, py_index.
  destruct (Z.ltb_spec i 0); [lia|]. destruct (Z.ltb_spec j 0); [lia|].
  destruct (Z_le_gt_dec (Z.of_nat (length l)) i) as [Hge|Hlt].
  - rewrite (Z.min_r i) by lia.
    rewrite !skipn_all2 by lia. now rewrite !firstn_nil.
  - rewrite (Z.min_l i) by lia.
    destruct (Z_le_gt_dec j (Z.of_nat (length l))).
    + rewrite (Z.min_l j) by lia. f_equal. lia.
    + rewrite (Z.min_r j) by lia.
      rewrite !firstn_all2; trivial; rewrite length_skipn; lia.
Qed.

Lemma py_slice_to (j : Z) l :
  0 <= j -> py_slice None (Some j) l = firstn (Z.to_nat j) l.
Proof.
  intros Hj. unfold py_slice, py_index. cbn [Z.to_nat skipn].
  destruct (Z.ltb_spec j 0); [lia|]. rewrite Z.sub_0_r.
  destruct (Z_le_gt_dec j (Z.of_nat (length l))).
  - now rewrite Z.min_l by lia.
  - rewrite Z.min_r by lia. rewrite !firstn_all2; trivial; lia.
Qed.

Lemma py_slice_from (i : Z) l :
  0 <= i -> py_slice (Some i) None l = skipn (Z.to_nat i) l.
Proof.
  intros Hi. unfold py_slice, py_index.
  destruct (Z.ltb_spec i 0); [lia|].
  destruct (Z_le_gt_dec (Z.of_nat (length l)) i).
  - rewrite Z.min_r by lia. rewrite !skipn_all2 by lia. apply firstn_nil.
  - rewrite Z.min_l by lia. apply firstn_all2. rewrite length_skipn. lia.
Qed.

(** [l[:-k]]-style bounds on a sequence that is long enough. *)
Lemma py_slice_upto_neg (i k : Z) l :
  0 <= i -> 0 < k -> k <= Z.of_nat (length l) ->
  py_slice (Some i) (Some (- k)) l
  = firstn (length l - Z.to_nat k - Z.to_nat i) (skipn (Z.to_nat i) l).
Proof.
  intros Hi Hk Hlen. unfold py_slice, py_index.
  destruct (Z.ltb_spec i 0); [lia|]. destruct (Z.ltb_spec (- k) 0); [|lia].
  rewrite Z.max_r by lia.
  destruct (Z_le_gt_dec (Z.of_nat (length l)) i).
  - rewrite Z.min_r by lia. rewrite !skipn_all2 by lia. now rewrite !firstn_nil.
  - rewrite Z.min_l by lia. f_equal. lia.
Qed.

Lemma py_slice_last (k : Z) l :
  0 < k -> k <= Z.of_nat (length l) ->
  py_slice (Some (- k)) None l = skipn (length l - Z.to_nat k) l.
Proof.
  intros Hk Hlen. unfold py_slice, py_index.
  destruct (Z.ltb_spec (- k) 0); [|lia]. rewrite Z.max_r by lia.
  replace (Z.to_nat (Z.of_nat (length l) + - k))
    with (length l - Z.to_nat k)%nat by lia.
  apply firstn_all2. rewrite length_skipn. lia.
Qed.

Lemma firstn_exact a b n : length a = n -> firstn n (a ++ b) = a.
Proof.
  intros <-. rewrite firstn_app, Nat.sub_diag, firstn_all. cbn.
  apply app_nil_r.
Qed.

Lemma skipn_exact a b n : length a = n -> skipn n (a ++ b) = b.
Proof.
  intros <-. rewrite skipn_app, Nat.sub_diag, skipn_all. reflexivity.
Qed.

Lemma skipn_past a b n m :
  length a = n -> skipn (n + m) (a ++ b) = skipn m b.
Proof.
  intros <-. rewrite skipn_app, skipn_all2 by lia. cbn. f_equal. lia.
Qed.

End Slices.


(** ** Consequences of the key contracts *)

Section KeyFacts.
Context {K : KeyOps} {KL : KeyLaws K}.

(** The sender's side of the derivation always goes through. *)
Lemma derive_sender_ok (a : PrivateKey) (P : PublicKey) (inv : string) :
  exists sc rc ss,
    priv_derive_child a P inv = Ok sc /\
    pub_derive_child P a inv = Ok rc /\
    priv_derive_shared_secret sc rc = Ok ss /\
    length ss = 33%nat.
Proof.
  destruct (priv_derive_child_ok a P inv) as [sc Hsc].
  destruct (pub_derive_child_ok P a inv) as [rc Hrc].
  destruct (shared_secret_ok sc rc) as (ss & Hss & Hlen).
  now exists sc, rc, ss.
Qed.

(** The recipient's side arrives at the sender's shared secret. *)
Lemma derive_agree (a b : PrivateKey) (inv : string) sc rc ss :
  priv_derive_child a (public_key b) inv = Ok sc ->
  pub_derive_child (public_key b) a inv = Ok rc ->
  priv_derive_shared_secret sc rc = Ok ss ->
  exists sc' rc',
    pub_derive_child (public_key a) b inv = Ok sc' /\
    priv_derive_child b (public_key a) inv = Ok rc' /\
    pub_derive_shared_secret sc' rc' = Ok ss.
Proof.
  intros Hsc Hrc Hss.
  destruct (priv_derive_child_ok b (public_key a) inv) as [rc' Hrc'].
  pose proof (child_pair a b inv sc Hsc) as Hsc'.
  pose proof (child_pair b a inv rc' Hrc') as Hpair.
  rewrite Hrc in Hpair. injection Hpair as ->.
  exists (public_key sc), rc'. repeat apply conj; trivial.
  now rewrite shared_secret_sym.
Qed.

End KeyFacts.
(** ** What [encrypt] computes *)

Section EncryptFacts.
Context {R : Rng} {K : KeyOps} {C : Aead}.
Context {RL : RngLaws R} {KL : KeyLaws K} {CL : AeadLaws C}.

Lemma aes_gcm_encrypt_run key message g :
  length key = 32%nat ->
  exists ct tag,
    let iv := fst (randbytes 32 g) in
    gcm_encrypt_and_digest key iv message = Ok (ct, tag) /\
    length ct = length message /\ length tag = 16%nat /\
    aes_gcm_encrypt key message g
    = (Ok (iv ++ ct ++ tag), snd (randbytes 32 g)).
Proof.
  intros Hkey.
  pose proof (randbytes_length 32 g) as Hiv.
  destruct (gcm_encrypt_ok key (fst (randbytes 32 g)) message Hkey Hiv)
    as (ct & tag & Henc & Hct & Htag).
  exists ct, tag. cbn zeta. repeat split; trivial.
  unfold aes_gcm_encrypt, bindM, draw, lift, ret.
  destruct (randbytes 32 g) as [iv g1]. cbn [fst snd] in *.
  now rewrite Henc.
Qed.

Lemma tail_length (ss : bytes) :
  length ss = 33%nat -> length (py_slice (Some 1) None ss) = 32%nat.
Proof.
  intros H. rewrite py_slice_from by lia. rewrite length_skipn, H. reflexivity.
Qed.

(** One run of [encrypt], step by step. *)
Lemma encrypt_run message sender recipient g :
  let key_id := fst (randbytes 32 g) in
  let g1 := snd (randbytes 32 g) in
  let iv := fst (randbytes 32 g1) in
  let g2 := snd (randbytes 32 g1) in
  exists sc rc ss ct tag,
    priv_derive_child sender recipient (invoice_of key_id) = Ok sc /\
    pub_derive_child recipient sender (invoice_of key_id) = Ok rc /\
    priv_derive_shared_secret sc rc = Ok ss /\
    length ss = 33%nat /\
    gcm_encrypt_and_digest (py_slice (Some 1) None ss) iv message
    = Ok (ct, tag) /\
    length ct = length message /\ length tag = 16%nat /\
    encrypt message sender recipient g
    = (Ok (VERSION ++ serialize (public_key sender) ++ serialize recipient
             ++ key_id ++ iv ++ ct ++ tag), g2).
Proof.
  cbn zeta.
  destruct (derive_sender_ok sender recipient
              (invoice_of (fst (randbytes 32 g))))
    as (sc & rc & ss & Hsc & Hrc & Hss & Hlen).
  destruct (aes_gcm_encrypt_run (py_slice (Some 1) None ss) message
              (snd (randbytes 32 g)) (tail_length ss Hlen))
    as (ct & tag & Henc & Hct & Htag & Hrun).
  exists sc, rc, ss, ct, tag. repeat split; trivial.
  unfold encrypt, bindM at 1, draw at 1.
  destruct (randbytes 32 g) as [key_id g1]. cbn [fst snd] in *.
  fold (invoice_of key_id).
  unfold bindM, lift. rewrite Hsc, Hrc, Hss, Hrun. reflexivity.
Qed.

End EncryptFacts.

(** ** What [decrypt] reads from an envelope *)

Section Envelope.
Implicit Types sp rp kid enc iv ct tag : bytes.

Lemma skipn_app_ge {A} (a b : list A) n :
  (length a <= n)%nat -> skipn n (a ++ b) = skipn (n - length a) b.
Proof. intros H. now rewrite skipn_app, skipn_all2. Qed.

Ltac field_slice :=
  repeat (rewrite skipn_app_ge by (cbn [length]; lia));
  cbn [length];
  repeat match goal with H : length _ = _ |- _ => rewrite H end;
  cbn [Nat.sub skipn];
  try (apply firstn_exact; cbn [length]; lia);
  trivial.

Lemma envelope_fields sp rp kid enc :
  length sp = 33%nat -> length rp = 33%nat -> length kid = 32%nat ->
  let env := VERSION ++ sp ++ rp ++ kid ++ enc in
  py_slice None (Some 4) env = VERSION /\
  py_slice (Some 4) (Some 37) env = sp /\
  py_slice (Some 37) (Some 70) env = rp /\
  py_slice (Some 70) (Some 102) env = kid /\
  py_slice (Some 102) None env = enc.
Proof.
  intros Hsp Hrp Hkid env. subst env. unfold VERSION.
  rewrite py_slice_to, !py_slice_nonneg, py_slice_from by lia.
  repeat apply conj.
  - reflexivity.
  - change (Z.to_nat 37 - Z.to_nat 4)%nat with 33%nat.
    change (Z.to_nat 4) with 4%nat. field_slice.
  - change (Z.to_nat 70 - Z.to_nat 37)%nat with 33%nat.
    change (Z.to_nat 37) with 37%nat. field_slice.
  - change (Z.to_nat 102 - Z.to_nat 70)%nat with 32%nat.
    change (Z.to_nat 70) with 70%nat. field_slice.
  - change (Z.to_nat 102) with 102%nat. field_slice.
Qed.

Lemma gcm_fields iv ct tag :
  length iv = 32%nat -> length tag = 16%nat ->
  let message := iv ++ ct ++ tag in
  py_slice None (Some 32) message = iv /\
  py_slice (Some 32) (Some (-16)) message = ct /\
  py_slice (Some (-16)) None message = tag.
Proof.
  intros Hiv Htag message. subst message.
  assert (Hlen : length (iv ++ ct ++ tag) = (32 + length ct + 16)%nat)
    by (rewrite !length_app; lia).
  rewrite py_slice_to by lia.
  change (-16) with (- (16)).
  rewrite py_slice_upto_neg, py_slice_last by lia.
  rewrite Hlen. change (Z.to_nat 32) with 32%nat.
  change (Z.to_nat 16) with 16%nat.
  repeat apply conj.
  - now apply firstn_exact.
  - rewrite skipn_exact by trivial.
    replace (32 + length ct + 16 - 16 - 32)%nat with (length ct) by lia.
    now apply firstn_exact.
  - replace (32 + length ct + 16 - 16)%nat with (32 + length ct)%nat by lia.
    rewrite skipn_past by trivial. now apply skipn_exact.
Qed.

End Envelope.


(** ** The small instance meets the contracts *)

Module ToyLaws.
Import Toy.

Lemma of_Z_congr x y : x mod 2 ^ 8 = y mod 2 ^ 8 -> byte.of_Z x = byte.of_Z y.
Proof.
  intros H. apply byte.unsigned_inj. rewrite !byte.unsigned_of_Z.
  exact H.
Qed.

#[export] Instance toy_rng_laws : RngLaws toy_rng.
Proof. constructor. intros n g. apply repeat_length. Qed.

Lemma ecdh_sym (a b : byte) :
  ecdh a (byte.of_Z (byte.unsigned b * G))
  = ecdh b (byte.of_Z (byte.unsigned a * G)).
Proof.
  unfold ecdh. apply of_Z_congr. rewrite !byte.unsigned_of_Z.
  unfold byte.wrap. rewrite !Z.mul_mod_idemp_r by discriminate.
  f_equal. ring.
Qed.

Lemma child_offset_sym (a b : byte) inv :
  child_offset b (byte.of_Z (byte.unsigned a * G)) inv
  = child_offset a (byte.of_Z (byte.unsigned b * G)) inv.
Proof. unfold child_offset. now rewrite ecdh_sym. Qed.

#[export] Instance toy_key_laws : KeyLaws toy_keys.
Proof.
  constructor.
  - intros P. reflexivity.
  - intros P. reflexivity.
  - intros a P inv. eexists. reflexivity.
  - intros P a inv. eexists. reflexivity.
  - intros a P. eexists. split; reflexivity.
  - intros a b inv child [= <-]. cbn. f_equal.
    rewrite (child_offset_sym a b). set (o := child_offset _ _ _).
    apply of_Z_congr. rewrite !byte.unsigned_of_Z. unfold byte.wrap.
    rewrite Z.add_mod_idemp_l, Z.mul_mod_idemp_l by discriminate.
    f_equal. ring.
  - intros a b. cbn. now rewrite (ecdh_sym a b).
Qed.

Lemma shift_inv k b : shift (- k) (shift k b) = b.
Proof.
  unfold shift. rewrite <- (byte.of_Z_unsigned b) at 2.
  apply of_Z_congr. rewrite byte.unsigned_of_Z. unfold byte.wrap.
  rewrite Z.add_mod_idemp_l by discriminate. f_equal. lia.
Qed.

#[export] Instance toy_aead_laws : AeadLaws toy_aead.
Proof.
  constructor.
  - intros key iv m Hkey _. cbn. unfold key_size_ok. rewrite Hkey. cbn.
    do 2 eexists. repeat apply conj; try reflexivity.
    apply length_map.
  - intros key iv m ct tag. cbn.
    destruct (key_size_ok key); [|discriminate].
    intros [= <- <-].
    destruct (bytes_eq_dec _ _) as [_|Hne]; [|now elim Hne].
    rewrite map_map. rewrite <- (map_id m) at 2.
    apply f_equal, map_ext. intros b. apply shift_inv.
Qed.

End ToyLaws.

(** ** What [decrypt] computes *)

Section DecryptFacts.
Context {K : KeyOps} {C : Aead}.

Lemma decrypt_body_version message recipient :
  py_slice None (Some 4) message <> VERSION ->
  decrypt_body message recipient
  = Raise (version_mismatch (py_slice None (Some 4) message)).
Proof.
  intros Hv. unfold decrypt_body.
  destruct (bytes_eq_dec _ VERSION); [contradiction|reflexivity].
Qed.

Lemma decrypt_body_recipient message recipient :
  py_slice None (Some 4) message = VERSION ->
  py_slice (Some 37) (Some 70) message <> serialize (public_key recipient) ->
  decrypt_body message recipient
  = Raise (recipient_mismatch recipient (py_slice (Some 37) (Some 70) message)).
Proof.
  intros Hv Hr. unfold decrypt_body.
  destruct (bytes_eq_dec _ VERSION); [|contradiction].
  destruct (bytes_eq_dec _ (serialize _)); [contradiction|reflexivity].
Qed.

Lemma decrypt_body_checked message recipient :
  py_slice None (Some 4) message = VERSION ->
  py_slice (Some 37) (Some 70) message = serialize (public_key recipient) ->
  decrypt_body message recipient
  = (sender <- PublicKey_new (py_slice (Some 4) (Some 37) message) ;;
     sender_child <- pub_derive_child sender recipient
                       (invoice_of (py_slice (Some 70) (Some 102) message)) ;;
     recipient_child <- priv_derive_child recipient sender
                       (invoice_of (py_slice (Some 70) (Some 102) message)) ;;
     shared_secret <- pub_derive_shared_secret sender_child recipient_child ;;
     aes_gcm_decrypt (py_slice (Some 1) None shared_secret)
       (py_slice (Some 102) None message))%result.
Proof.
  intros Hv Hr. unfold decrypt_body.
  destruct (bytes_eq_dec _ VERSION); [|contradiction].
  destruct (bytes_eq_dec _ (serialize _)); [reflexivity|contradiction].
Qed.

(** The body raises exactly the failures of its stages. *)
Lemma decrypt_body_raises message recipient e :
  decrypt_body message recipient = Raise e <-> stage_failure message recipient e.
Proof.
  split.
  - intros H.
    destruct (bytes_eq_dec (py_slice None (Some 4) message) VERSION) as [Hv|Hv].
    2:{ rewrite decrypt_body_version in H by trivial.
        injection H as <-. now constructor. }
    destruct (bytes_eq_dec (py_slice (Some 37) (Some 70) message)
                (serialize (public_key recipient))) as [Hr|Hr].
    2:{ rewrite decrypt_body_recipient in H by trivial.
        injection H as <-. now constructor. }
    rewrite decrypt_body_checked in H by trivial. unfold bind in H.
    destruct (PublicKey_new _) as [sender|e1] eqn:E1.
    2:{ injection H as <-. now apply fail_parse. }
    destruct (pub_derive_child _ _ _) as [sc|e2] eqn:E2.
    2:{ injection H as <-. now apply fail_sender_child with sender. }
    destruct (priv_derive_child _ _ _) as [rc|e3] eqn:E3.
    2:{ injection H as <-. now apply fail_recipient_child with sender sc. }
    destruct (pub_derive_shared_secret _ _) as [ss|e4] eqn:E4.
    2:{ injection H as <-. now apply fail_shared_secret with sender sc rc. }
    now apply fail_aead with sender sc rc ss.
  - intros H. destruct H;
      try (rewrite decrypt_body_checked by trivial; unfold bind;
           repeat match goal with Heq : _ = _ |- _ => rewrite Heq end;
           reflexivity).
    + now apply decrypt_body_version.
    + now apply decrypt_body_recipient.
Qed.

Lemma decrypt_of_body message recipient :
  decrypt message recipient
  = match decrypt_body message recipient with
    | Ok plaintext => Ok plaintext
    | Raise e => Raise (decrypt_failure e)
    end.
Proof. reflexivity. Qed.

End DecryptFacts.

(** ** The envelope produced by [encrypt] *)

Section EnvelopeClaims.
Context {R : Rng} {K : KeyOps} {C : Aead}.
Context {RL : RngLaws R} {KL : KeyLaws K} {CL : AeadLaws C}.

(** C2.  For every message, [encrypt] returns the bytes
    version ‖ sender public key ‖ recipient public key ‖ keyID ‖ iv ‖
    ciphertext ‖ authTag in this order, where the version is the
    constant 42 42 10 33, both keys are the 33-byte serializations, the
    key id is the first 32-byte draw of the random source, the iv is the
    second 32-byte draw, and ciphertext and the 16-byte tag are what the
    cipher returns for the message under that iv. *)
Theorem encrypt_layout (message : bytes) (sender : PrivateKey)
    (recipient : PublicKey) (g : rng) :
  exists key_id iv ciphertext auth_tag key g',
    encrypt message sender recipient g
    = (Ok (envelope_of (serialize (public_key sender)) (serialize recipient)
             key_id iv ciphertext auth_tag), g') /\
    VERSION = [Byte.x42; Byte.x42; Byte.x10; Byte.x33] /\
    length VERSION = 4%nat /\
    length (serialize (public_key sender)) = 33%nat /\
    length (serialize recipient) = 33%nat /\
    (key_id, snd (randbytes 32 g)) = randbytes 32 g /\
    length key_id = 32%nat /\
    (iv, g') = randbytes 32 (snd (randbytes 32 g)) /\
    length iv = 32%nat /\
    gcm_encrypt_and_digest key iv message = Ok (ciphertext, auth_tag) /\
    length auth_tag = 16%nat.
Proof.
  destruct (encrypt_run message sender recipient g)
    as (sc & rc & ss & ct & tag & _ & _ & _ & _ & Henc & _ & Htag & Hrun).
  exists (fst (randbytes 32 g)), (fst (randbytes 32 (snd (randbytes 32 g)))),
    ct, tag, (py_slice (Some 1) None ss),
    (snd (randbytes 32 (snd (randbytes 32 g)))).
  repeat apply conj; trivial.
  - apply serialize_length.
  - apply serialize_length.
  - now destruct (randbytes 32 g).
  - apply randbytes_length.
  - now destruct (randbytes 32 (snd (randbytes 32 g))).
  - apply randbytes_length.
Qed.

(** C10.  For every message, the empty one included, the envelope
    returned by [encrypt] is exactly 150 bytes longer than the message:
    a 102-byte header (4-byte version, two 33-byte public keys, 32-byte
    key id), then a 32-byte iv and a 16-byte tag around a ciphertext as
    long as the message. *)
Theorem encrypt_length (message : bytes) (sender : PrivateKey)
    (recipient : PublicKey) (g : rng) :
  exists envelope g' key_id iv ciphertext auth_tag,
    let header := VERSION ++ serialize (public_key sender)
                    ++ serialize recipient ++ key_id in
    encrypt message sender recipient g = (Ok envelope, g') /\
    envelope = header ++ iv ++ ciphertext ++ auth_tag /\
    length envelope = (length message + 150)%nat /\
    length header = 102%nat /\
    length VERSION = 4%nat /\
    length (serialize (public_key sender)) = 33%nat /\
    length (serialize recipient) = 33%nat /\
    length key_id = 32%nat /\
    length iv = 32%nat /\
    length ciphertext = length message /\
    length auth_tag = 16%nat.
Proof.
  destruct (encrypt_run message sender recipient g)
    as (sc & rc & ss & ct & tag & _ & _ & _ & _ & _ & Hct & Htag & Hrun).
  pose proof (randbytes_length 32 g) as Hkid.
  pose proof (randbytes_length 32 (snd (randbytes 32 g))) as Hiv.
  pose proof (serialize_length (public_key sender)) as Hsp.
  pose proof (serialize_length recipient) as Hrp.
  eexists _, _, (fst (randbytes 32 g)),
    (fst (randbytes 32 (snd (randbytes 32 g)))), ct, tag.
  cbn zeta. split; [exact Hrun|].
  repeat apply conj; trivial.
  - now rewrite <- !app_assoc.
  - rewrite !length_app. cbn [length VERSION]. lia.
  - rewrite !length_app. cbn [length VERSION]. lia.
Qed.

(** C1.  For every non-empty message [m], sender key [A_priv] and
    recipient key pair [(B_priv, public_key B_priv)], [encrypt] returns
    an envelope and [decrypt] of that envelope under [B_priv] returns
    [m]. *)
Theorem decrypt_encrypt_roundtrip (message : bytes)
    (A_priv B_priv : PrivateKey) (g : rng) :
  message <> [] ->
  exists envelope g',
    encrypt message A_priv (public_key B_priv) g = (Ok envelope, g') /\
    decrypt envelope B_priv = Ok message.
Proof.
  intros _.
  destruct (encrypt_run message A_priv (public_key B_priv) g)
    as (sc & rc & ss & ct & tag & Hsc & Hrc & Hss & Hlen & Henc & Hct
        & Htag & Hrun).
  eexists _, _. split; [exact Hrun|].
  pose proof (randbytes_length 32 g) as Hkid.
  pose proof (randbytes_length 32 (snd (randbytes 32 g))) as Hiv.
  set (key_id := fst (randbytes 32 g)) in *.
  set (iv := fst (randbytes 32 (snd (randbytes 32 g)))) in *.
  destruct (envelope_fields (serialize (public_key A_priv))
              (serialize (public_key B_priv)) key_id (iv ++ ct ++ tag)
              (serialize_length _) (serialize_length _) Hkid)
    as (Fv & Fsp & Frp & Fkid & Fenc).
  destruct (gcm_fields iv ct tag Hiv Htag) as (Giv & Gct & Gtag).
  destruct (derive_agree A_priv B_priv (invoice_of key_id) sc rc ss Hsc Hrc Hss)
    as (sc' & rc' & Hsc' & Hrc' & Hss').
  rewrite decrypt_of_body, decrypt_body_checked by assumption.
  rewrite Fsp, Fkid, Fenc, PublicKey_new_serialize.
  cbn [bind]. rewrite Hsc'. cbn [bind]. rewrite Hrc'. cbn [bind].
  rewrite Hss'. cbn [bind]. unfold aes_gcm_decrypt.
  rewrite Giv, Gct, Gtag.
  now rewrite (gcm_decrypt_encrypt _ _ _ _ _ Henc).
Qed.

End EnvelopeClaims.

(** ** Failures of [decrypt] *)

Section DecryptClaims.
Context {K : KeyOps} {C : Aead}.

(** C3, as amended.  For every input whose first four bytes differ from
    42 42 10 33 and every recipient key, [decrypt] fails with the
    decrypt-failure [ValueError] whose cause is the version-mismatch
    error and whose text repeats the text of that error. *)
Theorem decrypt_version_mismatch (message : bytes) (recipient : PrivateKey) :
  py_slice None (Some 4) message <> VERSION ->
  decrypt message recipient
  = Raise (decrypt_failure (version_mismatch (py_slice None (Some 4) message))).
Proof.
  intros Hv. now rewrite decrypt_of_body, decrypt_body_version.
Qed.

(** C4.  For every envelope with the right version field and every
    recipient key whose serialized public key differs from the
    recipient key embedded in the envelope (bytes 37 to 70), [decrypt]
    fails; the failure reports the recipient mismatch as its cause and
    in its text, and no plaintext is returned. *)
Theorem decrypt_wrong_recipient (message : bytes) (recipient : PrivateKey) :
  py_slice None (Some 4) message = VERSION ->
  py_slice (Some 37) (Some 70) message <> serialize (public_key recipient) ->
  decrypt message recipient
  = Raise (decrypt_failure
             (recipient_mismatch recipient
                (py_slice (Some 37) (Some 70) message))) /\
  forall plaintext, decrypt message recipient <> Ok plaintext.
Proof.
  intros Hv Hr.
  rewrite decrypt_of_body, decrypt_body_recipient by assumption.
  split; [reflexivity|discriminate].
Qed.

(** C5.  Whatever the input, [decrypt] either returns the plaintext the
    body computed, or one stage of the body (version check, recipient
    check, parsing of the sender key, derivation of either child key or
    of the shared secret, tag verification) raised [e] and [decrypt]
    raises the one decrypt-failure error, built from [e] in the same
    way whichever stage raised it: always of class [ValueError], with
    [e] as its cause and the text of [e] after a fixed prefix.  No
    other error leaves [decrypt], and the failure of a stage is final:
    it is never turned into a result. *)
Theorem decrypt_failures_collapse (message : bytes) (recipient : PrivateKey) :
  (exists plaintext,
      decrypt_body message recipient = Ok plaintext /\
      decrypt message recipient = Ok plaintext) \/
  (exists e,
      stage_failure message recipient e /\
      decrypt message recipient
      = Raise (ExnFrom ValueError
                 ("failed to decrypt message: " ++ exn_str e)%string e) /\
      exn_kind_of (decrypt_failure e) = ValueError /\
      exn_cause (decrypt_failure e) = Some e).
Proof.
  rewrite decrypt_of_body.
  destruct (decrypt_body message recipient) as [plaintext|e] eqn:Hbody.
  - left. now exists plaintext.
  - right. exists e. apply decrypt_body_raises in Hbody.
    repeat apply conj; trivial.
Qed.

(** Both operations hand the cipher the key of the protocol. *)
Lemma encrypt_uses_sender_key {R : Rng} (message : bytes)
    (sender : PrivateKey) (recipient : PublicKey) (g : rng) :
  encrypt message sender recipient g
  = (key_id <- draw 32 ;;
     symmetric_key <- lift (sender_symmetric_key sender recipient key_id) ;;
     encrypted <- aes_gcm_encrypt symmetric_key message ;;
     ret (VERSION ++ serialize (public_key sender) ++ serialize recipient
            ++ key_id ++ encrypted))%rng g.
Proof.
  unfold encrypt, sender_symmetric_key, invoice_of, bindM, draw, lift, bind.
  destruct (randbytes 32 g) as [key_id g1].
  destruct (priv_derive_child _ _ _); trivial.
  destruct (pub_derive_child _ _ _); trivial.
  destruct (priv_derive_shared_secret _ _) as [ss|]; trivial.
Qed.

Lemma decrypt_uses_recipient_key (message : bytes) (recipient : PrivateKey) :
  py_slice None (Some 4) message = VERSION ->
  py_slice (Some 37) (Some 70) message = serialize (public_key recipient) ->
  decrypt_body message recipient
  = (sender <- PublicKey_new (py_slice (Some 4) (Some 37) message) ;;
     symmetric_key <- recipient_symmetric_key sender recipient
                        (py_slice (Some 70) (Some 102) message) ;;
     aes_gcm_decrypt symmetric_key (py_slice (Some 102) None message))%result.
Proof.
  intros Hv Hr. rewrite decrypt_body_checked by assumption.
  unfold recipient_symmetric_key, bind.
  destruct (PublicKey_new _); trivial.
  destruct (pub_derive_child _ _ _); trivial.
  destruct (priv_derive_child _ _ _); trivial.
  destruct (pub_derive_shared_secret _ _) as [ss|]; trivial.
Qed.

End DecryptClaims.

(** ** The symmetric key *)

Section KeyClaims.
Context {R : Rng} {C : Aead}.

(** Replacing the shared-secret methods by others that differ at most
    in the first byte of what they return changes neither operation. *)
Lemma shared_secret_head_unused (K : KeyOps)
    (f : @PrivateKey K -> @PublicKey K -> result bytes)
    (h : @PublicKey K -> @PrivateKey K -> result bytes) :
  (forall a P, tail_of (f a P) = tail_of (priv_derive_shared_secret a P)) ->
  (forall P a, tail_of (h P a) = tail_of (pub_derive_shared_secret P a)) ->
  (forall message sender recipient g,
      encrypt (K := with_secrets K f h) message sender recipient g
      = encrypt (K := K) message sender recipient g) /\
  (forall message recipient,
      decrypt (K := with_secrets K f h) message recipient
      = decrypt (K := K) message recipient).
Proof.
  intros Hf Hh. split.
  - intros message sender recipient g.
    rewrite (encrypt_uses_sender_key (K := with_secrets K f h)).
    rewrite (encrypt_uses_sender_key (K := K)).
    unfold bindM, draw. destruct (randbytes 32 g) as [key_id g1].
    replace (sender_symmetric_key (K := with_secrets K f h) sender recipient
               key_id)
      with (sender_symmetric_key (K := K) sender recipient key_id);
      [reflexivity|].
    unfold sender_symmetric_key, bind. cbn.
    destruct (priv_derive_child _ _ _) as [sc|]; trivial.
    destruct (pub_derive_child _ _ _) as [rc|]; trivial.
    symmetry. apply Hf.
  - intros message recipient. rewrite !decrypt_of_body.
    replace (decrypt_body (K := with_secrets K f h) message recipient)
      with (decrypt_body (K := K) message recipient); [reflexivity|].
    destruct (bytes_eq_dec (py_slice None (Some 4) message) VERSION) as [Hv|Hv].
    2:{ now rewrite (decrypt_body_version (K := K)),
          (decrypt_body_version (K := with_secrets K f h)). }
    destruct (bytes_eq_dec (py_slice (Some 37) (Some 70) message)
                (serialize (public_key recipient))) as [Hr|Hr].
    2:{ now rewrite (decrypt_body_recipient (K := K)),
          (decrypt_body_recipient (K := with_secrets K f h)). }
    rewrite (decrypt_uses_recipient_key (K := K)) by assumption.
    rewrite (decrypt_uses_recipient_key (K := with_secrets K f h))
      by assumption.
    cbn. unfold bind. destruct (PublicKey_new _) as [sender|]; trivial.
    replace (recipient_symmetric_key (K := with_secrets K f h) sender recipient
               (py_slice (Some 70) (Some 102) message))
      with (recipient_symmetric_key (K := K) sender recipient
              (py_slice (Some 70) (Some 102) message)); [reflexivity|].
    unfold recipient_symmetric_key, bind. cbn.
    destruct (pub_derive_child _ _ _) as [sc|]; trivial.
    destruct (priv_derive_child _ _ _) as [rc|]; trivial.
    symmetry. apply Hh.
Qed.

Context {K : KeyOps} {KL : KeyLaws K}.

Lemma sender_key_ok (sender : PrivateKey) (recipient : PublicKey)
    (key_id : bytes) :
  exists sender_child recipient_child parity key,
    priv_derive_child sender recipient
      ("2-message encryption-" ++ b64encode key_id)%string = Ok sender_child /\
    pub_derive_child recipient sender
      ("2-message encryption-" ++ b64encode key_id)%string
    = Ok recipient_child /\
    priv_derive_shared_secret sender_child recipient_child
    = Ok (parity :: key) /\
    length (parity :: key) = 33%nat /\ length key = 32%nat /\
    sender_symmetric_key sender recipient key_id = Ok key.
Proof.
  destruct (derive_sender_ok sender recipient (invoice_of key_id))
    as (sc & rc & ss & Hsc & Hrc & Hss & Hlen).
  destruct ss as [|parity key]; [discriminate|].
  exists sc, rc, parity, key. fold (invoice_of key_id).
  repeat apply conj; trivial.
  - cbn in Hlen. lia.
  - unfold sender_symmetric_key.
    rewrite Hsc; cbn [bind]. rewrite Hrc; cbn [bind]. rewrite Hss; cbn [bind].
    now rewrite py_slice_from by lia.
Qed.

Lemma recipient_key_agrees (A_priv B_priv : PrivateKey) (key_id : bytes) :
  recipient_symmetric_key (public_key A_priv) B_priv key_id
  = sender_symmetric_key A_priv (public_key B_priv) key_id.
Proof.
  destruct (derive_sender_ok A_priv (public_key B_priv) (invoice_of key_id))
    as (sc & rc & ss & Hsc & Hrc & Hss & Hlen).
  destruct (derive_agree A_priv B_priv (invoice_of key_id) sc rc ss Hsc Hrc Hss)
    as (sc' & rc' & Hsc' & Hrc' & Hss').
  unfold recipient_symmetric_key, sender_symmetric_key.
  rewrite Hsc; cbn [bind]. rewrite Hrc; cbn [bind]. rewrite Hss.
  rewrite Hsc'; cbn [bind]. rewrite Hrc'; cbn [bind]. now rewrite Hss'.
Qed.

(** C6.  [encrypt] and [decrypt] pass to the cipher the key
    [shared[1:]], where [shared] is the shared secret of the two child
    keys derived for the invoice number
    "2-message encryption-<base64(keyID)>".  For well-formed keys the
    shared secret has 33 bytes, so the key has exactly 32; sender and
    recipient obtain the same key; and the first byte of the shared
    secret does not influence either operation. *)
Theorem symmetric_key_is_shared_secret_tail :
  (forall message sender recipient g,
      encrypt message sender recipient g
      = (key_id <- draw 32 ;;
         symmetric_key <- lift (sender_symmetric_key sender recipient key_id) ;;
         encrypted <- aes_gcm_encrypt symmetric_key message ;;
         ret (VERSION ++ serialize (public_key sender) ++ serialize recipient
                ++ key_id ++ encrypted))%rng g) /\
  (forall message recipient,
      py_slice None (Some 4) message = VERSION ->
      py_slice (Some 37) (Some 70) message = serialize (public_key recipient) ->
      decrypt message recipient
      = try_except
          (sender <- PublicKey_new (py_slice (Some 4) (Some 37) message) ;;
           symmetric_key <- recipient_symmetric_key sender recipient
                              (py_slice (Some 70) (Some 102) message) ;;
           aes_gcm_decrypt symmetric_key (py_slice (Some 102) None message))%result
          (fun e => Raise (decrypt_failure e))) /\
  (forall sender recipient key_id,
      exists sender_child recipient_child parity key,
        priv_derive_child sender recipient
          ("2-message encryption-" ++ b64encode key_id)%string
        = Ok sender_child /\
        pub_derive_child recipient sender
          ("2-message encryption-" ++ b64encode key_id)%string
        = Ok recipient_child /\
        priv_derive_shared_secret sender_child recipient_child
        = Ok (parity :: key) /\
        length (parity :: key) = 33%nat /\ length key = 32%nat /\
        sender_symmetric_key sender recipient key_id = Ok key) /\
  (forall A_priv B_priv key_id,
      recipient_symmetric_key (public_key A_priv) B_priv key_id
      = sender_symmetric_key A_priv (public_key B_priv) key_id) /\
  (forall f h,
      (forall a P, tail_of (f a P) = tail_of (priv_derive_shared_secret a P)) ->
      (forall P a, tail_of (h P a) = tail_of (pub_derive_shared_secret P a)) ->
      (forall message sender recipient g,
          encrypt (K := with_secrets K f h) message sender recipient g
          = encrypt (K := K) message sender recipient g) /\
      (forall message recipient,
          decrypt (K := with_secrets K f h) message recipient
          = decrypt (K := K) message recipient)).
Proof.
  split; [|split; [|split; [|split]]].
  - apply encrypt_uses_sender_key.
  - intros message recipient Hv Hr. unfold decrypt.
    now rewrite decrypt_uses_recipient_key.
  - apply sender_key_ok.
  - apply recipient_key_agrees.
  - intros f h Hf Hh. exact (shared_secret_head_unused K f h Hf Hh).
Qed.

End KeyClaims.

(** ** Runs on the small instance *)

#[local] Existing Instances Toy.toy_rng Toy.toy_keys Toy.toy_aead.

Example sample_encrypt :
  encrypt (R := Toy.toy_rng) (K := Toy.toy_keys) (C := Toy.toy_aead)
    Samples.message Samples.A_priv (public_key Samples.B_priv) 5
  = (Ok Samples.envelope, 7).
Proof. vm_compute. reflexivity. Qed.

Example sample_decrypt :
  decrypt (K := Toy.toy_keys) (C := Toy.toy_aead) Samples.envelope Samples.B_priv
  = Ok Samples.message.
Proof. vm_compute. reflexivity. Qed.

(** A failed tag check and an unreadable sender key surface as the
    same decrypt failure, each with its own cause. *)
Example sample_decrypt_tampered :
  decrypt Samples.tampered Samples.B_priv
  = Raise (ExnFrom ValueError "failed to decrypt message: MAC check failed"
             (Exn ValueError "MAC check failed")).
Proof. vm_compute. reflexivity. Qed.

Example sample_decrypt_bad_sender :
  decrypt Samples.bad_sender Samples.B_priv
  = Raise (ExnFrom ValueError "failed to decrypt message: invalid public key"
             (Exn ValueError "invalid public key")).
Proof. vm_compute. reflexivity. Qed.

(** The round trip on the sample message. *)
Lemma decrypt_encrypt_roundtrip_witness :
  Samples.message <> [] /\
  exists envelope g',
    encrypt (R := Toy.toy_rng) (K := Toy.toy_keys) (C := Toy.toy_aead)
      Samples.message Samples.A_priv (public_key Samples.B_priv) 5
    = (Ok envelope, g') /\
    decrypt envelope Samples.B_priv = Ok Samples.message.
Proof.
  split; [discriminate|].
  apply (@decrypt_encrypt_roundtrip Toy.toy_rng Toy.toy_keys Toy.toy_aead
           ToyLaws.toy_rng_laws ToyLaws.toy_key_laws ToyLaws.toy_aead_laws).
  discriminate.
Defined.

(** The layout of the sample envelope. *)
Lemma encrypt_layout_witness :
  exists key_id iv ciphertext auth_tag key g',
    encrypt (R := Toy.toy_rng) (K := Toy.toy_keys) (C := Toy.toy_aead)
      Samples.message Samples.A_priv (public_key Samples.B_priv) 5
    = (Ok (envelope_of (serialize (public_key Samples.A_priv))
             (serialize (public_key Samples.B_priv))
             key_id iv ciphertext auth_tag), g') /\
    VERSION = [Byte.x42; Byte.x42; Byte.x10; Byte.x33] /\
    length VERSION = 4%nat /\
    length (serialize (public_key Samples.A_priv)) = 33%nat /\
    length (serialize (public_key Samples.B_priv)) = 33%nat /\
    (key_id, snd (randbytes 32 5)) = randbytes 32 5 /\
    length key_id = 32%nat /\
    (iv, g') = randbytes 32 (snd (randbytes 32 5)) /\
    length iv = 32%nat /\
    gcm_encrypt_and_digest key iv Samples.message = Ok (ciphertext, auth_tag) /\
    length auth_tag = 16%nat.
Proof.
  exact (@encrypt_layout Toy.toy_rng Toy.toy_keys Toy.toy_aead
           ToyLaws.toy_rng_laws ToyLaws.toy_key_laws ToyLaws.toy_aead_laws
           Samples.message Samples.A_priv (public_key Samples.B_priv) 5).
Defined.

(** The envelope of the empty message has 150 bytes. *)
Lemma encrypt_length_witness :
  exists envelope g' key_id iv ciphertext auth_tag,
    let header := VERSION ++ serialize (public_key Samples.A_priv)
                    ++ serialize (public_key Samples.B_priv) ++ key_id in
    encrypt [] Samples.A_priv (public_key Samples.B_priv) 5
    = (Ok envelope, g') /\
    envelope = header ++ iv ++ ciphertext ++ auth_tag /\
    length envelope = (0 + 150)%nat /\
    length header = 102%nat /\
    length VERSION = 4%nat /\
    length (serialize (public_key Samples.A_priv)) = 33%nat /\
    length (serialize (public_key Samples.B_priv)) = 33%nat /\
    length key_id = 32%nat /\
    length iv = 32%nat /\
    length ciphertext = 0%nat /\
    length auth_tag = 16%nat.
Proof.
  exact (@encrypt_length Toy.toy_rng Toy.toy_keys Toy.toy_aead
           ToyLaws.toy_rng_laws ToyLaws.toy_key_laws ToyLaws.toy_aead_laws
           [] Samples.A_priv (public_key Samples.B_priv) 5).
Defined.

(** C3 as stated does not hold: on an input with a wrong version field
    [decrypt] does not raise the version-mismatch error itself but the
    decrypt-failure error that wraps it. *)
Lemma decrypt_version_mismatch_is_wrapped :
  py_slice None (Some 4) Samples.bad_version <> VERSION /\
  decrypt (K := Toy.toy_keys) (C := Toy.toy_aead) Samples.bad_version
    Samples.B_priv
  = Raise (ExnFrom ValueError
      "failed to decrypt message: message version mismatch, expected 42421033 but got 42421034"
      (Exn ValueError
         "message version mismatch, expected 42421033 but got 42421034")) /\
  decrypt (K := Toy.toy_keys) (C := Toy.toy_aead) Samples.bad_version
    Samples.B_priv
  <> Raise (version_mismatch (py_slice None (Some 4) Samples.bad_version)).
Proof.
  split; [|split].
  - vm_compute. discriminate.
  - vm_compute. reflexivity.
  - vm_compute. discriminate.
Qed.

(** The wrapped version mismatch on the sample input. *)
Lemma decrypt_version_mismatch_witness :
  py_slice None (Some 4) Samples.bad_version <> VERSION /\
  decrypt (K := Toy.toy_keys) (C := Toy.toy_aead) Samples.bad_version
    Samples.B_priv
  = Raise (decrypt_failure
             (version_mismatch (py_slice None (Some 4) Samples.bad_version))).
Proof.
  assert (H : py_slice None (Some 4) Samples.bad_version <> VERSION)
    by (vm_compute; discriminate).
  split; [exact H|].
  exact (@decrypt_version_mismatch Toy.toy_keys Toy.toy_aead
           Samples.bad_version Samples.B_priv H).
Defined.

(** The sample envelope in the hands of the holder of key 12. *)
Lemma decrypt_wrong_recipient_witness :
  py_slice None (Some 4) Samples.envelope = VERSION /\
  py_slice (Some 37) (Some 70) Samples.envelope
  <> serialize (public_key Samples.C_priv) /\
  decrypt (K := Toy.toy_keys) (C := Toy.toy_aead) Samples.envelope
    Samples.C_priv
  = Raise (decrypt_failure
             (recipient_mismatch Samples.C_priv
                (py_slice (Some 37) (Some 70) Samples.envelope))) /\
  forall plaintext,
    decrypt (K := Toy.toy_keys) (C := Toy.toy_aead) Samples.envelope
      Samples.C_priv <> Ok plaintext.
Proof.
  assert (Hv : py_slice None (Some 4) Samples.envelope = VERSION)
    by (vm_compute; reflexivity).
  assert (Hr : py_slice (Some 37) (Some 70) Samples.envelope
               <> serialize (public_key Samples.C_priv))
    by (vm_compute; discriminate).
  split; [exact Hv|]. split; [exact Hr|].
  exact (@decrypt_wrong_recipient Toy.toy_keys Toy.toy_aead
           Samples.envelope Samples.C_priv Hv Hr).
Defined.

(** The sender's key for the sample key id. *)
Lemma symmetric_key_is_shared_secret_tail_witness :
  exists sender_child recipient_child parity key,
    priv_derive_child Samples.A_priv (public_key Samples.B_priv)
      ("2-message encryption-" ++ b64encode (repeat Byte.x05 32))%string
    = Ok sender_child /\
    pub_derive_child (public_key Samples.B_priv) Samples.A_priv
      ("2-message encryption-" ++ b64encode (repeat Byte.x05 32))%string
    = Ok recipient_child /\
    priv_derive_shared_secret sender_child recipient_child
    = Ok (parity :: key) /\
    length (parity :: key) = 33%nat /\ length key = 32%nat /\
    sender_symmetric_key Samples.A_priv (public_key Samples.B_priv)
      (repeat Byte.x05 32) = Ok key.
Proof.
  exact (proj1 (proj2 (proj2
           (@symmetric_key_is_shared_secret_tail Toy.toy_rng Toy.toy_aead
              Toy.toy_keys ToyLaws.toy_key_laws)))
           Samples.A_priv (public_key Samples.B_priv) (repeat Byte.x05 32)).
Defined.

(** ** Fixed-width integers *)

Lemma encode_uint_fits n width order :
  0 <= n < 2 ^ (8 * Z.of_nat width) ->
  exists bs,
    encode_uint n width order = Ok bs /\ length bs = width /\
    decode_uint bs order = n.
Proof.
  intros [Hlo Hhi]. unfold encode_uint.
  destruct (Z.ltb_spec n 0); [lia|].
  destruct (Z.leb_spec (2 ^ (8 * Z.of_nat width)) n); [lia|].
  eexists. split; [reflexivity|].
  assert (Hval : le_combine (le_split width n) = n).
  { rewrite le_combine_split, Z.mod_small; trivial.
    now rewrite Z.mul_comm. }
  destruct order; cbn [decode_uint].
  - now rewrite length_rev, length_le_split, rev_involutive.
  - now rewrite length_le_split.
Qed.

Lemma encode_uint_overflow n width order :
  n < 0 \/ 2 ^ (8 * Z.of_nat width) <= n ->
  exists e, encode_uint n width order = Raise e /\
            exn_kind_of e = OverflowError.
Proof.
  intros H. unfold encode_uint.
  destruct (Z.ltb_spec n 0); [eexists; split; reflexivity|].
  destruct (Z.leb_spec (2 ^ (8 * Z.of_nat width)) n); [|lia].
  eexists; split; reflexivity.
Qed.

(** ** CompactSize integers *)

(** The vectors of [test_unsigned_to_varint]. *)
Example varint_vectors :
  encode_varint 0 = Ok [Byte.x00] /\
  encode_varint 0xfc = Ok [Byte.xfc] /\
  encode_varint 0xfd = Ok [Byte.xfd; Byte.xfd; Byte.x00] /\
  encode_varint 0xabcd = Ok [Byte.xfd; Byte.xcd; Byte.xab] /\
  encode_varint 0x010000
  = Ok [Byte.xfe; Byte.x00; Byte.x00; Byte.x01; Byte.x00] /\
  encode_varint 0x12345678
  = Ok [Byte.xfe; Byte.x78; Byte.x56; Byte.x34; Byte.x12] /\
  encode_varint 0x0100000000
  = Ok [Byte.xff; Byte.x00; Byte.x00; Byte.x00; Byte.x00; Byte.x01;
        Byte.x00; Byte.x00; Byte.x00] /\
  encode_varint 0x1234567890abcdef
  = Ok [Byte.xff; Byte.xef; Byte.xcd; Byte.xab; Byte.x90; Byte.x78;
        Byte.x56; Byte.x34; Byte.x12] /\
  (exists m, encode_varint (-1) = Raise (Exn OverflowError m)) /\
  (exists m, encode_varint 0x010000000000000000 = Raise (Exn OverflowError m)).
Proof.
  repeat apply conj; try (vm_compute; reflexivity);
    eexists; vm_compute; reflexivity.
Qed.

(** C7.  For every integer [n]: below 0xfd the encoding is the single
    byte [n]; up to 0xffff it is 0xfd and the two little-endian bytes of
    [n]; up to 0xffffffff it is 0xfe and four; up to the end of the
    64-bit range it is 0xff and eight; a negative [n] and an [n] beyond
    the 64-bit range fail with [OverflowError], the spec's RangeError.
    The two literal vectors hold. *)
Theorem encode_varint_compact_size (n : Z) :
  (0 <= n < 0xfd ->
   encode_varint n = Ok [byte.of_Z n] /\ byte.unsigned (byte.of_Z n) = n) /\
  (0xfd <= n <= 0xffff ->
   exists payload,
     encode_varint n = Ok (Byte.xfd :: payload) /\
     length payload = 2%nat /\ decode_uint payload little = n) /\
  (0xffff < n <= 0xffffffff ->
   exists payload,
     encode_varint n = Ok (Byte.xfe :: payload) /\
     length payload = 4%nat /\ decode_uint payload little = n) /\
  (0xffffffff < n < 2 ^ 64 ->
   exists payload,
     encode_varint n = Ok (Byte.xff :: payload) /\
     length payload = 8%nat /\ decode_uint payload little = n) /\
  (n < 0 \/ 2 ^ 64 <= n ->
   exists e, encode_varint n = Raise e /\ exn_kind_of e = OverflowError) /\
  encode_varint 0xfd = Ok [Byte.xfd; Byte.xfd; Byte.x00] /\
  encode_varint 0x12345678
  = Ok [Byte.xfe; Byte.x78; Byte.x56; Byte.x34; Byte.x12].
Proof.
  unfold encode_varint.
  split; [|split; [|split; [|split; [|split; [|split]]]]].
  - intros H. destruct (Z.ltb_spec n 253); [|lia].
    unfold encode_uint.
    destruct (Z.ltb_spec n 0); [lia|].
    destruct (Z.leb_spec (2 ^ (8 * Z.of_nat 1)) n) as [Hbig|_].
    { change (2 ^ (8 * Z.of_nat 1)) with 256 in Hbig. lia. }
    split; [reflexivity|].
    rewrite byte.unsigned_of_Z. unfold byte.wrap.
    apply Z.mod_small. change (2 ^ 8) with 256. lia.
  - intros H. destruct (Z.ltb_spec n 253); [lia|].
    destruct (Z.leb_spec n 65535); [|lia].
    destruct (encode_uint_fits n 2 little) as (bs & -> & Hlen & Hval).
    { change (2 ^ (8 * Z.of_nat 2)) with 65536. lia. }
    exists bs. now repeat apply conj.
  - intros H. destruct (Z.ltb_spec n 253); [lia|].
    destruct (Z.leb_spec n 65535); [lia|].
    destruct (Z.leb_spec n 4294967295); [|lia].
    destruct (encode_uint_fits n 4 little) as (bs & -> & Hlen & Hval).
    { change (2 ^ (8 * Z.of_nat 4)) with 4294967296. lia. }
    exists bs. now repeat apply conj.
  - intros H. change (2 ^ 64) with 18446744073709551616 in H.
    destruct (Z.ltb_spec n 253); [lia|].
    destruct (Z.leb_spec n 65535); [lia|].
    destruct (Z.leb_spec n 4294967295); [lia|].
    destruct (encode_uint_fits n 8 little) as (bs & -> & Hlen & Hval).
    { change (2 ^ (8 * Z.of_nat 8)) with 18446744073709551616. lia. }
    exists bs. now repeat apply conj.
  - intros H. change (2 ^ 64) with 18446744073709551616 in H.
    destruct H as [H|H].
    + destruct (Z.ltb_spec n 253); [|lia].
      apply encode_uint_overflow. now left.
    + destruct (Z.ltb_spec n 253); [lia|].
      destruct (Z.leb_spec n 65535); [lia|].
      destruct (Z.leb_spec n 4294967295); [lia|].
      destruct (encode_uint_overflow n 8 little) as (e & -> & He).
      { right. change (2 ^ (8 * Z.of_nat 8)) with 18446744073709551616. lia. }
      exists e. now split.
  - vm_compute. reflexivity.
  - vm_compute. reflexivity.
Qed.

(** The two-byte case at 0xabcd. *)
Lemma encode_varint_compact_size_witness :
  0xfd <= 0xabcd <= 0xffff /\
  exists payload,
    encode_varint 0xabcd = Ok (Byte.xfd :: payload) /\
    length payload = 2%nat /\ decode_uint payload little = 0xabcd.
Proof.
  assert (H : 0xfd <= 0xabcd <= 0xffff) by lia.
  split; [exact H|].
  exact (proj1 (proj2 (encode_varint_compact_size 0xabcd)) H).
Defined.

(** ** DER signatures *)

Section Der.

Lemma byte_length_spec x :
  1 <= x < 2 ^ 256 ->
  (1 <= byte_length x <= 32)%nat /\ x < 2 ^ (8 * Z.of_nat (byte_length x)).
Proof.
  intros [Hlo Hhi]. unfold byte_length.
  assert (Hlog : 0 <= Z.log2 x < 256).
  { split; [apply Z.log2_nonneg|]. apply Z.log2_lt_pow2; lia. }
  assert (Hq : 0 <= Z.log2 x / 8 <= 31).
  { split; [apply Z.div_pos; lia|].
    enough (Z.log2 x / 8 < 32) by lia. apply Z.div_lt_upper_bound; lia. }
  split; [lia|].
  rewrite Z2Nat.id by lia.
  destruct (Z.log2_spec x) as [_ Hup]; [lia|].
  eapply Z.lt_le_trans; [exact Hup|].
  apply Z.pow_le_mono_r; [lia|].
  pose proof (Z.mod_pos_bound (Z.log2 x) 8 ltac:(lia)).
  pose proof (Z.div_mod (Z.log2 x) 8 ltac:(lia)). lia.
Qed.

Lemma decode_minimal_be x :
  1 <= x < 2 ^ 256 -> decode_uint (minimal_be x) big = x.
Proof.
  intros H. destruct (byte_length_spec x H) as [_ Hfit].
  unfold decode_uint, minimal_be. rewrite rev_involutive, le_combine_split.
  apply Z.mod_small. rewrite Z.mul_comm. lia.
Qed.

Lemma decode_leading_zero bs :
  decode_uint (Byte.x00 :: bs) big = decode_uint bs big.
Proof. unfold decode_uint. cbn [rev]. apply le_combine_snoc_0. Qed.

(** An INTEGER is tag, length and a content of 1 to 33 bytes that
    decodes to the value. *)
Lemma der_integer_spec x :
  1 <= x < 2 ^ 256 ->
  exists content,
    der_integer x
    = Byte.x02 :: byte.of_Z (Z.of_nat (length content)) :: content /\
    (1 <= length content <= 33)%nat /\
    decode_uint content big = x.
Proof.
  intros H. destruct (byte_length_spec x H) as [Hlen _].
  assert (Hl : length (minimal_be x) = byte_length x).
  { unfold minimal_be. now rewrite length_rev, length_le_split. }
  unfold der_integer. destruct (top_bit_set (minimal_be x)).
  - exists (Byte.x00 :: minimal_be x). repeat apply conj; trivial.
    + cbn [length]. lia.
    + cbn [length]. lia.
    + rewrite decode_leading_zero. now apply decode_minimal_be.
  - exists (minimal_be x). repeat apply conj; trivial; try lia.
    now apply decode_minimal_be.
Qed.

Lemma small_length_byte (len : nat) :
  (len <= 255)%nat -> byte.unsigned (byte.of_Z (Z.of_nat len)) = Z.of_nat len.
Proof.
  intros H. rewrite byte.unsigned_of_Z. unfold byte.wrap.
  apply Z.mod_small. change (2 ^ 8) with 256. lia.
Qed.

Lemma parse_der_integer_app x rest :
  1 <= x < 2 ^ 256 ->
  parse_der_integer (der_integer x ++ rest) = Some (x, rest).
Proof.
  intros H. destruct (der_integer_spec x H) as (content & -> & Hlen & Hval).
  cbn [app parse_der_integer Byte.eqb].
  rewrite small_length_byte, Nat2Z.id by lia.
  replace (length content <=? length (content ++ rest))%nat with true.
  2:{ symmetry. apply Nat.leb_le. rewrite length_app. lia. }
  replace (Byte.eqb Byte.x02 Byte.x02) with true by reflexivity.
  cbn [andb].
  now rewrite firstn_exact, skipn_exact, Hval.
Qed.

Lemma der_integer_length x :
  1 <= x < 2 ^ 256 -> (3 <= length (der_integer x) <= 35)%nat.
Proof.
  intros H. destruct (der_integer_spec x H) as (content & -> & Hlen & _).
  cbn [length]. lia.
Qed.

Lemma low_s_range n s :
  1 <= s < n -> 1 <= low_s n s < n /\ low_s n s <= n / 2.
Proof.
  intros H. unfold low_s.
  pose proof (Z.div_mod n 2 ltac:(lia)).
  pose proof (Z.mod_pos_bound n 2 ltac:(lia)).
  destruct (Z.ltb_spec (n / 2) s); lia.
Qed.

Lemma low_s_mirror n s : 1 <= s < n -> low_s n (n - s) = low_s n s.
Proof.
  intros H. unfold low_s.
  pose proof (Z.div_mod n 2 ltac:(lia)).
  pose proof (Z.mod_pos_bound n 2 ltac:(lia)).
  destruct (Z.ltb_spec (n / 2) s); destruct (Z.ltb_spec (n / 2) (n - s)); lia.
Qed.

Lemma deserialize_serialize_der n r s :
  n <= 2 ^ 256 -> 1 <= r < n -> 1 <= s < n ->
  deserialize_der (serialize_der n (r, s)) = Ok (r, low_s n s).
Proof.
  intros Hn Hr Hs. destruct (low_s_range n s Hs) as [Hlow _].
  assert (Hr' : 1 <= r < 2 ^ 256) by lia.
  assert (Hs' : 1 <= low_s n s < 2 ^ 256) by lia.
  pose proof (der_integer_length r Hr').
  pose proof (der_integer_length (low_s n s) Hs').
  unfold serialize_der, deserialize_der.
  replace (Byte.eqb Byte.x30 Byte.x30) with true by reflexivity.
  rewrite small_length_byte by (rewrite length_app; lia).
  rewrite Z.eqb_refl. cbn [andb].
  rewrite parse_der_integer_app by trivial.
  rewrite <- (app_nil_r (der_integer (low_s n s))).
  now rewrite parse_der_integer_app.
Qed.

End Der.

(** The vectors of [test_der_serialization]. *)
Example der_vectors :
  let r1 := 114587593887127314608220924841831336233967095853165151956820984900193959037698 in
  let s1 := 24000727837347392504013031837120627225728348681623127776947626422811445180558 in
  let r2 := 57069924365784604413146650701306419944030991562754207986153667089859857018394 in
  let s2 := 11615408348402409164215774430388304177694127390766203039231142052414850779557 in
  let r3 := 16256011036517295435281672405882454685603286080662722236323812471789728336314 in
  let s3 := 399115516115506318232804590771004057701078428754012727453057145885291814963 in
  let der1 := "3045022100fd5647a062d42cdde975ad4796cefd6b5613e731c08e0fb6907f757a60f44b020220350fee392713423ebfcd8026ea29cc95917d823392f07cd6c80f46712650388e" in
  let der2 := "304402207e2c6eb8c4b20e251a71c580373a2836e209c50726e5f8b0f4f59f8af00eee1a022019ae1690e2eb4455add6ca5b86695d65d3261d914bc1d7abb40b188c7f46c9a5" in
  let der3 := "3044022023f093813911a658ac7cbaeb8ba7828b4067ea3582c78f8bd2c38b1f317489ba022000e1e43145a89f0d9d8524798b8ae2ca60ebf3947e35106d5e1ddf398985a033" in
  hex (serialize_der curve_n (r1, s1)) = der1 /\
  hex (serialize_der curve_n (r1, curve_n - s1)) = der1 /\
  hex (serialize_der curve_n (r2, s2)) = der2 /\
  hex (serialize_der curve_n (r2, curve_n - s2)) = der2 /\
  hex (serialize_der curve_n (r3, s3)) = der3 /\
  hex (serialize_der curve_n (r3, curve_n - s3)) = der3 /\
  deserialize_der (serialize_der curve_n (r1, s1)) = Ok (r1, s1) /\
  deserialize_der (serialize_der curve_n (r2, s2)) = Ok (r2, s2) /\
  deserialize_der [] = Raise (Exn ValueError "invalid DER encoded").
Proof. vm_compute. repeat apply conj; reflexivity. Qed.

(** C8.  For every signature [(r, s)] with [r] and [s] in [1, n-1]
    (with [n] a group order of at most 256 bits), the DER encoder
    produces the same bytes for [(r, s)] and [(r, n - s)], and decoding
    the encoding of [(r, s)] returns [r] with the low form of [s]: the
    one of [s] and [n - s] that does not exceed [n/2]. *)
Theorem der_low_s_roundtrip (n r s : Z) :
  n <= 2 ^ 256 -> 1 <= r < n -> 1 <= s < n ->
  serialize_der n (r, s) = serialize_der n (r, n - s) /\
  deserialize_der (serialize_der n (r, s)) = Ok (r, low_s n s) /\
  low_s n s <= n / 2 /\
  (low_s n s = s \/ low_s n s = n - s).
Proof.
  intros Hn Hr Hs. repeat apply conj.
  - unfold serialize_der. now rewrite low_s_mirror.
  - now apply deserialize_serialize_der.
  - now apply low_s_range.
  - unfold low_s. destruct (n / 2 <? s); auto.
Qed.

(** The first vector, entered with the high form of [s]. *)
Lemma der_low_s_roundtrip_witness :
  let r1 := 114587593887127314608220924841831336233967095853165151956820984900193959037698 in
  let s1 := 24000727837347392504013031837120627225728348681623127776947626422811445180558 in
  curve_n <= 2 ^ 256 /\ 1 <= r1 < curve_n /\ 1 <= curve_n - s1 < curve_n /\
  serialize_der curve_n (r1, curve_n - s1)
  = serialize_der curve_n (r1, curve_n - (curve_n - s1)) /\
  deserialize_der (serialize_der curve_n (r1, curve_n - s1))
  = Ok (r1, low_s curve_n (curve_n - s1)) /\
  low_s curve_n (curve_n - s1) <= curve_n / 2 /\
  (low_s curve_n (curve_n - s1) = curve_n - s1 \/
   low_s curve_n (curve_n - s1) = curve_n - (curve_n - s1)).
Proof.
  intros r1 s1.
  assert (Hn : curve_n <= 2 ^ 256) by (vm_compute; discriminate).
  assert (Hr : 1 <= r1 < curve_n) by (vm_compute; split; [discriminate|reflexivity]).
  assert (Hs : 1 <= curve_n - s1 < curve_n)
    by (vm_compute; split; [discriminate|reflexivity]).
  split; [exact Hn|]. split; [exact Hr|]. split; [exact Hs|].
  exact (der_low_s_roundtrip curve_n r1 (curve_n - s1) Hn Hr Hs).
Defined.

(** ** Base64 text *)

Section Base64.

Lemma b64_index_char v :
  0 <= v < 64 -> b64_index (b64_char v) = Some v.
Proof.
  intros Hv.
  assert (Hall : forallb
            (fun i => match b64_index (b64_char (Z.of_nat i)) with
                      | Some w => w =? Z.of_nat i
                      | None => false
                      end) (seq 0 64) = true) by (vm_compute; reflexivity).
  rewrite forallb_forall in Hall.
  specialize (Hall (Z.to_nat v)). rewrite Z2Nat.id in Hall by lia.
  destruct (b64_index (b64_char v)) as [w|].
  - f_equal. apply Z.eqb_eq, Hall, in_seq. lia.
  - discriminate Hall. apply in_seq. lia.
Qed.

Lemma b64_index_pad : b64_index "="%char = None.
Proof. reflexivity. Qed.

(** The four sextets of three bytes, and the way back. *)
Lemma sextets_range x y z :
  0 <= x < 256 -> 0 <= y < 256 -> 0 <= z < 256 ->
  0 <= x / 4 < 64 /\ 0 <= x mod 4 * 16 + y / 16 < 64 /\
  0 <= y mod 16 * 4 + z / 64 < 64 /\ 0 <= z mod 64 < 64.
Proof. intros. repeat apply conj; Z.div_mod_to_equations; lia. Qed.

Lemma sextets_first x y :
  0 <= x < 256 -> 0 <= y < 256 ->
  x / 4 * 4 + (x mod 4 * 16 + y / 16) / 16 = x.
Proof. intros. Z.div_mod_to_equations. lia. Qed.

Lemma sextets_second x y z :
  0 <= x < 256 -> 0 <= y < 256 -> 0 <= z < 256 ->
  (x mod 4 * 16 + y / 16) mod 16 * 16 + (y mod 16 * 4 + z / 64) / 4 = y.
Proof. intros. Z.div_mod_to_equations. lia. Qed.

Lemma sextets_third y z :
  0 <= y < 256 -> 0 <= z < 256 ->
  (y mod 16 * 4 + z / 64) mod 4 * 64 + z mod 64 = z.
Proof. intros. Z.div_mod_to_equations. lia. Qed.

Lemma byte_range (b : byte) : 0 <= byte.unsigned b < 256.
Proof. apply byte.unsigned_range. Qed.

Lemma list_ind3 {A} (P : list A -> Prop) :
  P [] -> (forall a, P [a]) -> (forall a b, P [a; b]) ->
  (forall a b c rest, P rest -> P (a :: b :: c :: rest)) ->
  forall l, P l.
Proof.
  intros H0 H1 H2 H3.
  fix IH 1. intros [|a [|b [|c rest]]].
  - exact H0.
  - exact (H1 a).
  - exact (H2 a b).
  - exact (H3 a b c rest (IH rest)).
Qed.

Lemma b64decode_b64encode bs : b64decode (b64encode bs) = Ok bs.
Proof.
  induction bs as [|a|a b|a b c rest IH] using list_ind3.
  - reflexivity.
  - pose proof (byte_range a) as Ha.
    destruct (sextets_range (byte.unsigned a) 0 0 Ha) as (S1 & S2 & _); try lia.
    cbn [b64encode b64decode]. rewrite Z.add_0_r in S2.
    rewrite (b64_index_char _ S1), (b64_index_char _ S2), b64_index_pad.
    cbn [is_pad is_empty andb Ascii.eqb Bool.eqb].
    pose proof (sextets_first (byte.unsigned a) 0 Ha) as F1.
    rewrite Z.add_0_r in F1. rewrite F1 by lia.
    now rewrite byte.of_Z_unsigned.
  - pose proof (byte_range a) as Ha. pose proof (byte_range b) as Hb.
    destruct (sextets_range (byte.unsigned a) (byte.unsigned b) 0 Ha Hb)
      as (S1 & S2 & S3 & _); try lia.
    cbn [b64encode b64decode]. rewrite Z.add_0_r in S3.
    rewrite (b64_index_char _ S1), (b64_index_char _ S2),
      (b64_index_char _ S3), b64_index_pad.
    cbn [is_pad is_empty andb Ascii.eqb Bool.eqb].
    rewrite (sextets_first _ _ Ha Hb).
    pose proof (sextets_second (byte.unsigned a) (byte.unsigned b) 0 Ha Hb)
      as F2.
    rewrite Z.add_0_r in F2. rewrite F2 by lia.
    now rewrite !byte.of_Z_unsigned.
  - pose proof (byte_range a) as Ha. pose proof (byte_range b) as Hb.
    pose proof (byte_range c) as Hc.
    destruct (sextets_range _ _ _ Ha Hb Hc) as (S1 & S2 & S3 & S4).
    cbn [b64encode b64decode].
    rewrite (b64_index_char _ S1), (b64_index_char _ S2),
      (b64_index_char _ S3), (b64_index_char _ S4), IH.
    cbn [bind].
    rewrite (sextets_first _ _ Ha Hb), (sextets_second _ _ _ Ha Hb Hc),
      (sextets_third _ _ Hb Hc).
    now rewrite !byte.of_Z_unsigned.
Qed.

End Base64.

(** ** Recoverable signatures *)

Section Recoverable.




End Recoverable.

(** The assertions of [test_recoverable_serialization], with the call
    shapes of the test. *)
Example recoverable_vectors :
  let sig1 := "IGdzMq98lowek10e3JFXWj909xp0oLRj71aF7jpWRxaabwH+fBia/K2JpoGQlFFbAl/Q5jo2DYSzQw6pZWhmRtk=" in
  let r1 := 46791760634954614230959036903197650877536710453529507613159894982805988775578 in
  let s1 := 50210249429004071986853078788876176203428035162933045037212292756431067039449 in
  let sig2 := "G1CbjucJgMF/5lyS7LPZrLZPVU60RA6b7fq9b1zULG6uNq4PWQUD8HAvZMgKRPk/vkbDwN0ZsPwoVgKgV5rOSyI=" in
  let r2 := 36459875458431662725541158294877706686723420026424146605771954142876183326382 in
  let s2 := 24732431138926461036459634608851410023678722603615132417233328850542638549794 in
  (exists serialized1,
      unstringify sig1 = Ok (serialized1, true) /\
      serialize_recoverable (r1, s1, 1) = Ok serialized1 /\
      deserialize_recoverable serialized1 = Ok (r1, s1, 1) /\
      stringify serialized1 true = Ok sig1) /\
  (exists serialized2,
      unstringify sig2 = Ok (serialized2, false) /\
      serialize_recoverable (r2, s2, 0) = Ok serialized2 /\
      deserialize_recoverable serialized2 = Ok (r2, s2, 0) /\
      stringify serialized2 false = Ok sig2).
Proof.
  split; eexists; (split; [vm_compute; reflexivity|]);
    vm_compute; repeat apply conj; reflexivity.
Qed.




(** ** How the two parsers cut their input *)

Section ParserCuts.
Context {A : Type}.
Implicit Types l : list A.

Lemma firstn_skipn_next l k n :
  firstn n (skipn k l) ++ skipn (k + n) l = skipn k l.
Proof.
  rewrite Nat.add_comm, <- skipn_skipn. apply firstn_skipn.
Qed.

Lemma length_py_slice_le (i j : Z) l :
  0 <= i <= j ->
  Z.of_nat (length (py_slice (Some i) (Some j) l)) <= j - i.
Proof.
  intros H. rewrite py_slice_nonneg by lia. rewrite length_firstn. lia.
Qed.

Lemma five_cuts l a b c d :
  firstn a l ++ firstn b (skipn a l) ++ firstn c (skipn (a + b) l)
    ++ firstn d (skipn (a + b + c) l) ++ skipn (a + b + c + d) l = l.
Proof.
  rewrite (firstn_skipn_next l (a + b + c) d).
  rewrite (firstn_skipn_next l (a + b) c).
  rewrite (firstn_skipn_next l a b).
  apply firstn_skipn.
Qed.

End ParserCuts.

(** X1.  The five fields that [decrypt] reads (lines 50 to 53) are
    consecutive and exhaustive for every input, whatever its length:
    concatenated in order they give back the input, and the four fixed
    fields have at most 4, 33, 33 and 32 bytes. *)
Theorem decrypt_fields_partition (message : bytes) :
  py_slice None (Some 4) message
    ++ py_slice (Some 4) (Some 37) message
    ++ py_slice (Some 37) (Some 70) message
    ++ py_slice (Some 70) (Some 102) message
    ++ py_slice (Some 102) None message = message /\
  Z.of_nat (length (py_slice None (Some 4) message)) <= 4 /\
  Z.of_nat (length (py_slice (Some 4) (Some 37) message)) <= 33 /\
  Z.of_nat (length (py_slice (Some 37) (Some 70) message)) <= 33 /\
  Z.of_nat (length (py_slice (Some 70) (Some 102) message)) <= 32.
Proof.
  repeat apply conj.
  - rewrite py_slice_to, !py_slice_nonneg, py_slice_from by lia.
    exact (five_cuts message 4 33 33 32).
  - rewrite py_slice_to by lia. rewrite length_firstn. lia.
  - apply (length_py_slice_le 4 37). lia.
  - apply (length_py_slice_le 37 70). lia.
  - apply (length_py_slice_le 70 102). lia.
Qed.

Section GcmCuts.
Context {C : Aead}.

(** X2.  On an input of at least 48 bytes [aes_gcm_decrypt] hands the
    cipher the first 32 bytes as nonce, the last 16 as tag and all bytes
    in between as ciphertext: the three parts are disjoint and make up
    the whole input. *)
Theorem aes_gcm_decrypt_cuts (key message : bytes) :
  (48 <= length message)%nat ->
  exists iv encrypted auth_tag,
    message = iv ++ encrypted ++ auth_tag /\
    length iv = 32%nat /\
    length encrypted = (length message - 48)%nat /\
    length auth_tag = 16%nat /\
    aes_gcm_decrypt key message
    = gcm_decrypt_and_verify key iv encrypted auth_tag.
Proof.
  intros Hlen.
  exists (firstn 32 message),
    (firstn (length message - 48) (skipn 32 message)),
    (skipn (length message - 16) message).
  repeat apply conj.
  - replace (length message - 16)%nat with (32 + (length message - 48))%nat
      by lia.
    rewrite firstn_skipn_next. symmetry. apply firstn_skipn.
  - rewrite length_firstn. lia.
  - rewrite length_firstn, length_skipn. lia.
  - rewrite length_skipn. lia.
  - unfold aes_gcm_decrypt.
    rewrite py_slice_to by lia. change (-16) with (- (16)).
    rewrite py_slice_upto_neg, py_slice_last by lia.
    change (Z.to_nat 32) with 32%nat. change (Z.to_nat 16) with 16%nat.
    do 2 f_equal. lia.
Qed.

(** X3.  [aes_gcm_decrypt] does not reject a short input itself.  Below
    48 bytes the ciphertext it hands the cipher is empty, the nonce is
    the first 32 bytes (or all of them) and the tag the last 16 (or all
    of them), so nonce and tag share bytes of the input. *)
Theorem aes_gcm_decrypt_short (key message : bytes) :
  (length message < 48)%nat ->
  aes_gcm_decrypt key message
  = gcm_decrypt_and_verify key (firstn 32 message) []
      (skipn (length message - 16) message) /\
  (length message < length (firstn 32 message)
                    + length (skipn (length message - 16) message)
   \/ message = [])%nat.
Proof.
  intros Hlen. split.
  - unfold aes_gcm_decrypt. rewrite py_slice_to by lia.
    change (Z.to_nat 32) with 32%nat.
    replace (py_slice (Some 32) (Some (-16)) message) with (@nil byte).
    2:{ unfold py_slice, py_index.
        change (32 <? 0) with false. change (-16 <? 0) with true. cbv iota.
        match goal with
        | |- _ = firstn ?n _ => replace n with 0%nat by lia
        end.
        reflexivity. }
    replace (py_slice (Some (-16)) None message)
      with (skipn (length message - 16) message); trivial.
    unfold py_slice, py_index. change (-16 <? 0) with true. cbv iota.
    replace (Z.to_nat (Z.max 0 (Z.of_nat (length message) + -16)))
      with (length message - 16)%nat by lia.
    symmetry. apply firstn_all2. rewrite length_skipn. lia.
  - destruct message as [|b rest]; [now right|left].
    rewrite length_firstn, length_skipn. cbn [length] in *. lia.
Qed.

End GcmCuts.

(** ** The cipher wrapper on its own *)

Section GcmRoundTrip.
Context {R : Rng} {C : Aead} {RL : RngLaws R} {CL : AeadLaws C}.

(** X4.  With a 32-byte key, [aes_gcm_decrypt] undoes
    [aes_gcm_encrypt] for every message, the empty one included.  The
    encrypted form is 48 bytes longer than the message, starts with the
    nonce, and producing it costs exactly one 32-byte draw. *)
Theorem aes_gcm_roundtrip (key message : bytes) (g : rng) :
  length key = 32%nat ->
  exists encrypted,
    aes_gcm_encrypt key message g = (Ok encrypted, snd (randbytes 32 g)) /\
    length encrypted = (length message + 48)%nat /\
    firstn 32 encrypted = fst (randbytes 32 g) /\
    aes_gcm_decrypt key encrypted = Ok message.
Proof.
  intros Hkey.
  destruct (aes_gcm_encrypt_run key message g Hkey)
    as (ct & tag & Henc & Hct & Htag & Hrun).
  pose proof (randbytes_length 32 g) as Hiv.
  destruct (gcm_fields (fst (randbytes 32 g)) ct tag Hiv Htag)
    as (Giv & Gct & Gtag).
  eexists. split; [exact Hrun|]. repeat apply conj.
  - rewrite !length_app. lia.
  - now apply firstn_exact.
  - unfold aes_gcm_decrypt. rewrite Giv, Gct, Gtag.
    exact (gcm_decrypt_encrypt _ _ _ _ _ Henc).
Qed.

End GcmRoundTrip.

#[local] Existing Instances Toy.toy_rng Toy.toy_keys Toy.toy_aead.

(** A 64-byte input under the sample cipher. *)
Lemma aes_gcm_decrypt_cuts_witness :
  (48 <= length (repeat Byte.x01 64))%nat /\
  exists iv encrypted auth_tag,
    repeat Byte.x01 64 = iv ++ encrypted ++ auth_tag /\
    length iv = 32%nat /\
    length encrypted = (length (repeat Byte.x01 64) - 48)%nat /\
    length auth_tag = 16%nat /\
    aes_gcm_decrypt (repeat Byte.x07 32) (repeat Byte.x01 64)
    = gcm_decrypt_and_verify (repeat Byte.x07 32) iv encrypted auth_tag.
Proof.
  assert (H : (48 <= length (repeat Byte.x01 64))%nat)
    by (vm_compute; repeat constructor).
  split; [exact H|].
  exact (@aes_gcm_decrypt_cuts Toy.toy_aead (repeat Byte.x07 32)
           (repeat Byte.x01 64) H).
Defined.

(** A 20-byte input: nonce and tag share its last 16 bytes. *)
Lemma aes_gcm_decrypt_short_witness :
  (length (repeat Byte.x01 20) < 48)%nat /\
  aes_gcm_decrypt (repeat Byte.x07 32) (repeat Byte.x01 20)
  = gcm_decrypt_and_verify (repeat Byte.x07 32)
      (firstn 32 (repeat Byte.x01 20)) []
      (skipn (length (repeat Byte.x01 20) - 16) (repeat Byte.x01 20)) /\
  (length (repeat Byte.x01 20)
   < length (firstn 32 (repeat Byte.x01 20))
     + length (skipn (length (repeat Byte.x01 20) - 16) (repeat Byte.x01 20))
   \/ repeat Byte.x01 20 = [])%nat.
Proof.
  assert (H : (length (repeat Byte.x01 20) < 48)%nat)
    by (vm_compute; repeat constructor).
  split; [exact H|].
  exact (@aes_gcm_decrypt_short Toy.toy_aead (repeat Byte.x07 32)
           (repeat Byte.x01 20) H).
Defined.

(** The empty message under a 32-byte key. *)
Lemma aes_gcm_roundtrip_witness :
  length (repeat Byte.x07 32) = 32%nat /\
  exists encrypted,
    aes_gcm_encrypt (repeat Byte.x07 32) [] 5
    = (Ok encrypted, snd (randbytes 32 5)) /\
    length encrypted = (0 + 48)%nat /\
    firstn 32 encrypted = fst (randbytes 32 5) /\
    aes_gcm_decrypt (repeat Byte.x07 32) encrypted = Ok [].
Proof.
  assert (H : length (repeat Byte.x07 32) = 32%nat) by reflexivity.
  split; [exact H|].
  exact (@aes_gcm_roundtrip Toy.toy_rng Toy.toy_aead ToyLaws.toy_rng_laws
           ToyLaws.toy_aead_laws (repeat Byte.x07 32) [] 5 H).
Defined.

(** ** Failures of [encrypt] *)

Section EncryptFailures.
Context {R : Rng} {K : KeyOps} {C : Aead}.

(** X5.  [encrypt] has no handler of its own: it fails exactly when one
    of its four collaborator calls fails, and then with that very
    exception, not wrapped.  When the derivation of a child key or of
    the shared secret fails only the key id has been drawn; when the
    cipher fails the nonce has been drawn as well. *)
Theorem encrypt_failure_propagates (message : bytes) (sender : PrivateKey)
    (recipient : PublicKey) (g g' : rng) (e : exn) :
  let key_id := fst (randbytes 32 g) in
  let g1 := snd (randbytes 32 g) in
  let invoice_number := ("2-message encryption-" ++ b64encode key_id)%string in
  encrypt message sender recipient g = (Raise e, g') <->
  (priv_derive_child sender recipient invoice_number = Raise e /\ g' = g1) \/
  (exists sender_child,
      priv_derive_child sender recipient invoice_number = Ok sender_child /\
      pub_derive_child recipient sender invoice_number = Raise e /\ g' = g1) \/
  (exists sender_child recipient_child,
      priv_derive_child sender recipient invoice_number = Ok sender_child /\
      pub_derive_child recipient sender invoice_number = Ok recipient_child /\
      priv_derive_shared_secret sender_child recipient_child = Raise e /\
      g' = g1) \/
  (exists sender_child recipient_child shared_secret,
      priv_derive_child sender recipient invoice_number = Ok sender_child /\
      pub_derive_child recipient sender invoice_number = Ok recipient_child /\
      priv_derive_shared_secret sender_child recipient_child
      = Ok shared_secret /\
      gcm_encrypt_and_digest (py_slice (Some 1) None shared_secret)
        (fst (randbytes 32 g1)) message = Raise e /\
      g' = snd (randbytes 32 g1)).
Proof.
  cbn zeta. unfold encrypt, aes_gcm_encrypt, bindM, draw, lift, ret.
  destruct (randbytes 32 g) as [key_id g1]. cbn [fst snd].
  destruct (priv_derive_child _ _ _) as [sc|e1].
  2:{ split.
      - intros [= <- <-]. now left.
      - intros [[[= ->] ->]|[(? & [=] & _)|[(? & ? & [=] & _)
                                           |(? & ? & ? & [=] & _)]]].
        reflexivity. }
  destruct (pub_derive_child _ _ _) as [rc|e2].
  2:{ split.
      - intros [= <- <-]. right; left. now exists sc.
      - intros [[[=] _]|[(? & _ & [= ->] & ->)|[(? & ? & _ & [=] & _)
                                              |(? & ? & ? & _ & [=] & _)]]].
        reflexivity. }
  destruct (priv_derive_shared_secret sc rc) as [ss|e3] eqn:Hss.
  2:{ split.
      - intros [= <- <-]. right; right; left. now exists sc, rc.
      - intros [[[=] _]|[(? & _ & [=] & _)
                        |[(sc' & rc' & [= <-] & [= <-] & Hss' & ->)
                         |(sc' & rc' & ? & [= <-] & [= <-] & Hss' & _)]]].
        + rewrite Hss in Hss'. now injection Hss' as ->.
        + rewrite Hss in Hss'. discriminate. }
  destruct (randbytes 32 g1) as [iv g2]. cbn [fst snd].
  destruct (gcm_encrypt_and_digest _ iv message) as [[ct tag]|e4] eqn:Henc.
  - split; [discriminate|].
    intros [[[=] _]|[(? & _ & [=] & _)
                    |[(sc' & rc' & [= <-] & [= <-] & Hss' & _)
                     |(sc' & rc' & ss' & [= <-] & [= <-] & Hss' & Henc' & _)]]].
    + rewrite Hss in Hss'. discriminate.
    + rewrite Hss in Hss'. injection Hss' as <-.
      rewrite Henc in Henc'. discriminate.
  - split.
    + intros [= <- <-]. right; right; right. now exists sc, rc, ss.
    + intros [[[=] _]|[(? & _ & [=] & _)
                      |[(sc' & rc' & [= <-] & [= <-] & Hss' & _)
                       |(sc' & rc' & ss' & [= <-] & [= <-] & Hss' & Henc'
                         & ->)]]].
      * rewrite Hss in Hss'. discriminate.
      * rewrite Hss in Hss'. injection Hss' as <-.
        rewrite Henc in Henc'. now injection Henc' as ->.
Qed.

End EncryptFailures.

(** With key agreement out of order, [encrypt] fails with the error of
    the key class after one draw. *)
Lemma encrypt_failure_propagates_witness :
  encrypt (R := Toy.toy_rng) (K := Samples.broken_keys) (C := Toy.toy_aead)
    Samples.message Samples.A_priv (public_key Samples.B_priv) 5
  = (Raise Samples.no_agreement, 6).
Proof.
  apply (proj2 (@encrypt_failure_propagates Toy.toy_rng Samples.broken_keys
                  Toy.toy_aead Samples.message Samples.A_priv
                  (public_key Samples.B_priv) 5 6 Samples.no_agreement)).
  right; right; left. do 2 eexists.
  repeat apply conj; reflexivity.
Defined.

(** ** [decrypt] on whole envelopes *)

Section EnvelopeOutcomes.
Context {R : Rng} {K : KeyOps} {C : Aead}.
Context {RL : RngLaws R} {KL : KeyLaws K} {CL : AeadLaws C}.

(** X6.  An envelope that [encrypt] made for one public key is refused
    by the holder of any other key: [decrypt] fails with the recipient
    mismatch as the cause, naming the key the envelope was made for. *)
Theorem decrypt_by_other_key (message : bytes) (sender other : PrivateKey)
    (recipient : PublicKey) (g : rng) :
  serialize (public_key other) <> serialize recipient ->
  exists envelope g',
    encrypt message sender recipient g = (Ok envelope, g') /\
    decrypt envelope other
    = Raise (decrypt_failure (recipient_mismatch other (serialize recipient))).
Proof.
  intros Hother.
  destruct (encrypt_run message sender recipient g)
    as (sc & rc & ss & ct & tag & _ & _ & _ & _ & _ & _ & _ & Hrun).
  eexists _, _. split; [exact Hrun|].
  destruct (envelope_fields (serialize (public_key sender))
              (serialize recipient) (fst (randbytes 32 g))
              (fst (randbytes 32 (snd (randbytes 32 g))) ++ ct ++ tag)
              (serialize_length _) (serialize_length _)
              (randbytes_length 32 g))
    as (Fv & _ & Frp & _).
  rewrite decrypt_of_body, decrypt_body_recipient; rewrite ?Frp; trivial.
  congruence.
Qed.


(** X9.  Whenever [decrypt] returns a plaintext, the input had the
    right version field, had the recipient's own serialized key in
    bytes 37 to 70, was at least 70 bytes long, carried a sender key
    that parses, and the plaintext is what the cipher wrapper returned
    for bytes 102 onwards under the key derived from that sender key
    and the key id in bytes 70 to 102. *)
Theorem decrypt_success_inversion (message plaintext : bytes)
    (recipient : PrivateKey) :
  decrypt message recipient = Ok plaintext ->
  py_slice None (Some 4) message = VERSION /\
  py_slice (Some 37) (Some 70) message = serialize (public_key recipient) /\
  (70 <= length message)%nat /\
  exists sender symmetric_key,
    PublicKey_new (py_slice (Some 4) (Some 37) message) = Ok sender /\
    recipient_symmetric_key sender recipient
      (py_slice (Some 70) (Some 102) message) = Ok symmetric_key /\
    aes_gcm_decrypt symmetric_key (py_slice (Some 102) None message)
    = Ok plaintext.
Proof.
  rewrite decrypt_of_body. intros H.
  destruct (bytes_eq_dec (py_slice None (Some 4) message) VERSION) as [Hv|Hv].
  2:{ now rewrite decrypt_body_version in H. }
  destruct (bytes_eq_dec (py_slice (Some 37) (Some 70) message)
              (serialize (public_key recipient))) as [Hr|Hr].
  2:{ now rewrite decrypt_body_recipient in H. }
  rewrite decrypt_uses_recipient_key in H by assumption.
  split; [exact Hv|]. split; [exact Hr|]. split.
  - pose proof (f_equal (@length byte) Hr) as Hlen.
    rewrite serialize_length, py_slice_nonneg in Hlen by lia.
    rewrite length_firstn, length_skipn in Hlen.
    change (Z.to_nat 70 - Z.to_nat 37)%nat with 33%nat in Hlen.
    change (Z.to_nat 37) with 37%nat in Hlen. lia.
  - destruct (PublicKey_new _) as [sender|] eqn:Hsender; [|discriminate].
    cbn [bind] in H.
    destruct (recipient_symmetric_key _ _ _) as [key|] eqn:Hkey;
      [|discriminate].
    cbn [bind] in H.
    destruct (aes_gcm_decrypt key _) as [pt|] eqn:Hpt; [|discriminate].
    injection H as ->. exists sender, key. now repeat apply conj.
Qed.

(** X10.  The first 134 bytes of the envelope (header and nonce) and
    the state of the random source after the call do not depend on the
    message that is encrypted. *)
Theorem encrypt_header_ignores_message (message1 message2 : bytes)
    (sender : PrivateKey) (recipient : PublicKey) (g : rng) :
  exists envelope1 envelope2 g',
    encrypt message1 sender recipient g = (Ok envelope1, g') /\
    encrypt message2 sender recipient g = (Ok envelope2, g') /\
    firstn 134 envelope1 = firstn 134 envelope2.
Proof.
  destruct (encrypt_run message1 sender recipient g)
    as (sc1 & rc1 & ss1 & ct1 & tag1 & _ & _ & _ & _ & _ & _ & _ & Hrun1).
  destruct (encrypt_run message2 sender recipient g)
    as (sc2 & rc2 & ss2 & ct2 & tag2 & _ & _ & _ & _ & _ & _ & _ & Hrun2).
  eexists _, _, _. split; [exact Hrun1|]. split; [exact Hrun2|].
  pose proof (serialize_length (public_key sender)) as Hsp.
  pose proof (serialize_length recipient) as Hrp.
  pose proof (randbytes_length 32 g) as Hkid.
  pose proof (randbytes_length 32 (snd (randbytes 32 g))) as Hiv.
  set (header := VERSION ++ serialize (public_key sender)
                   ++ serialize recipient ++ fst (randbytes 32 g)
                   ++ fst (randbytes 32 (snd (randbytes 32 g)))).
  assert (Hh : length header = 134%nat).
  { subst header. rewrite !length_app. cbn [length VERSION]. lia. }
  replace (VERSION ++ serialize (public_key sender) ++ serialize recipient
             ++ fst (randbytes 32 g)
             ++ fst (randbytes 32 (snd (randbytes 32 g))) ++ ct1 ++ tag1)
    with (header ++ ct1 ++ tag1)
    by (subst header; now rewrite <- !app_assoc).
  replace (VERSION ++ serialize (public_key sender) ++ serialize recipient
             ++ fst (randbytes 32 g)
             ++ fst (randbytes 32 (snd (randbytes 32 g))) ++ ct2 ++ tag2)
    with (header ++ ct2 ++ tag2)
    by (subst header; now rewrite <- !app_assoc).
  now rewrite !firstn_exact.
Qed.

End EnvelopeOutcomes.

Section CipherDecides.
Context {K : KeyOps} {C : Aead} {KL : KeyLaws K}.

(** X7.  On an envelope with well-formed fields that names [A_priv]'s
    public key as sender and [B_priv]'s as recipient, the outcome of
    [decrypt] for [B_priv] is the verdict of the cipher alone, asked
    under the key that [A_priv] derives for this key id: its plaintext
    if it accepts nonce, ciphertext and tag, its error wrapped if it
    does not. *)
Theorem decrypt_is_cipher_verdict (A_priv B_priv : PrivateKey)
    (key_id iv ciphertext auth_tag symmetric_key : bytes) :
  length key_id = 32%nat -> length iv = 32%nat -> length auth_tag = 16%nat ->
  sender_symmetric_key A_priv (public_key B_priv) key_id = Ok symmetric_key ->
  decrypt
    (envelope_of (serialize (public_key A_priv)) (serialize (public_key B_priv))
       key_id iv ciphertext auth_tag) B_priv
  = try_except (gcm_decrypt_and_verify symmetric_key iv ciphertext auth_tag)
      (fun e => Raise (decrypt_failure e)).
Proof.
  intros Hkid Hiv Htag Hkey.
  destruct (envelope_fields (serialize (public_key A_priv))
              (serialize (public_key B_priv)) key_id
              (iv ++ ciphertext ++ auth_tag)
              (serialize_length _) (serialize_length _) Hkid)
    as (Fv & Fsp & Frp & Fkid & Fenc).
  destruct (gcm_fields iv ciphertext auth_tag Hiv Htag) as (Giv & Gct & Gtag).
  unfold decrypt, envelope_of.
  rewrite decrypt_uses_recipient_key by assumption.
  rewrite Fsp, Fkid, Fenc, PublicKey_new_serialize. cbn [bind].
  rewrite recipient_key_agrees, Hkey. cbn [bind].
  unfold aes_gcm_decrypt. now rewrite Giv, Gct, Gtag.
Qed.

End CipherDecides.

(** ** The invoice number *)

Lemma string_app_inv_head (p a b : string) :
  (p ++ a)%string = (p ++ b)%string -> a = b.
Proof.
  induction p as [|c p IH]; cbn; [trivial|].
  intros [= H]. now apply IH.
Qed.

(** X11.  The invoice number that [encrypt] and [decrypt] build
    determines the key id: two key ids with the same invoice number are
    equal. *)
Theorem invoice_number_injective (key_id1 key_id2 : bytes) :
  ("2-message encryption-" ++ b64encode key_id1)%string
  = ("2-message encryption-" ++ b64encode key_id2)%string ->
  key_id1 = key_id2.
Proof.
  intros H. apply string_app_inv_head in H.
  pose proof (b64decode_b64encode key_id1) as H1.
  rewrite H, b64decode_b64encode in H1. now injection H1.
Qed.

(** ** The envelope properties on the sample values *)

(** The sample envelope in the hands of the holder of key 12. *)
Lemma decrypt_by_other_key_witness :
  serialize (public_key Samples.C_priv) <> serialize (public_key Samples.B_priv)
  /\
  exists envelope g',
    encrypt Samples.message Samples.A_priv (public_key Samples.B_priv) 5
    = (Ok envelope, g') /\
    decrypt envelope Samples.C_priv
    = Raise (decrypt_failure
               (recipient_mismatch Samples.C_priv
                  (serialize (public_key Samples.B_priv)))).
Proof.
  assert (H : serialize (public_key Samples.C_priv)
              <> serialize (public_key Samples.B_priv))
    by (vm_compute; discriminate).
  split; [exact H|].
  exact (@decrypt_by_other_key Toy.toy_rng Toy.toy_keys Toy.toy_aead
           ToyLaws.toy_rng_laws ToyLaws.toy_key_laws ToyLaws.toy_aead_laws
           Samples.message Samples.A_priv Samples.C_priv
           (public_key Samples.B_priv) 5 H).
Defined.

(** The tampered sample envelope: the cipher's refusal decides. *)
Lemma decrypt_is_cipher_verdict_witness :
  sender_symmetric_key Samples.A_priv (public_key Samples.B_priv)
    (repeat Byte.x05 32) = Ok (repeat Byte.x00 31 ++ [Byte.xa4]) /\
  decrypt Samples.tampered Samples.B_priv
  = try_except
      (gcm_decrypt_and_verify (repeat Byte.x00 31 ++ [Byte.xa4])
         (repeat Byte.x06 32) [Byte.x6e; Byte.x6e] (repeat Byte.x41 16))
      (fun e => Raise (decrypt_failure e)).
Proof.
  assert (H : sender_symmetric_key Samples.A_priv (public_key Samples.B_priv)
                (repeat Byte.x05 32) = Ok (repeat Byte.x00 31 ++ [Byte.xa4]))
    by (vm_compute; reflexivity).
  split; [exact H|].
  exact (@decrypt_is_cipher_verdict Toy.toy_keys Toy.toy_aead
           ToyLaws.toy_key_laws Samples.A_priv Samples.B_priv
           (repeat Byte.x05 32) (repeat Byte.x06 32) [Byte.x6e; Byte.x6e]
           (repeat Byte.x41 16) (repeat Byte.x00 31 ++ [Byte.xa4])
           eq_refl eq_refl eq_refl H).
Defined.


(** What the successful decryption of the sample envelope implies. *)
Lemma decrypt_success_inversion_witness :
  decrypt Samples.envelope Samples.B_priv = Ok Samples.message /\
  py_slice None (Some 4) Samples.envelope = VERSION /\
  py_slice (Some 37) (Some 70) Samples.envelope
  = serialize (public_key Samples.B_priv) /\
  (70 <= length Samples.envelope)%nat /\
  exists sender symmetric_key,
    PublicKey_new (py_slice (Some 4%Z) (Some 37%Z) Samples.envelope)
    = Ok sender /\
    recipient_symmetric_key sender Samples.B_priv
      (py_slice (Some 70%Z) (Some 102%Z) Samples.envelope)
    = Ok symmetric_key /\
    aes_gcm_decrypt symmetric_key (py_slice (Some 102%Z) None Samples.envelope)
    = Ok Samples.message.
Proof.
  assert (H : decrypt Samples.envelope Samples.B_priv = Ok Samples.message)
    by (vm_compute; reflexivity).
  split; [exact H|].
  exact (@decrypt_success_inversion Toy.toy_keys Toy.toy_aead
           ToyLaws.toy_key_laws Samples.envelope Samples.message
           Samples.B_priv H).
Defined.

(** "hi" and the empty message from the same state. *)
Lemma encrypt_header_ignores_message_witness :
  exists envelope1 envelope2 g',
    encrypt Samples.message Samples.A_priv (public_key Samples.B_priv) 5
    = (Ok envelope1, g') /\
    encrypt [] Samples.A_priv (public_key Samples.B_priv) 5
    = (Ok envelope2, g') /\
    firstn 134 envelope1 = firstn 134 envelope2.
Proof.
  exact (@encrypt_header_ignores_message Toy.toy_rng Toy.toy_keys Toy.toy_aead
           ToyLaws.toy_rng_laws ToyLaws.toy_key_laws ToyLaws.toy_aead_laws
           Samples.message [] Samples.A_priv (public_key Samples.B_priv) 5).
Defined.

(** Two spellings of the sample key id. *)
Lemma invoice_number_injective_witness :
  ("2-message encryption-" ++ b64encode (repeat Byte.x05 32))%string
  = ("2-message encryption-"
       ++ b64encode (repeat Byte.x05 16 ++ repeat Byte.x05 16)%list)%string /\
  repeat Byte.x05 32 = repeat Byte.x05 16 ++ repeat Byte.x05 16.
Proof.
  assert (H : ("2-message encryption-" ++ b64encode (repeat Byte.x05 32))%string
              = ("2-message encryption-"
                   ++ b64encode (repeat Byte.x05 16 ++ repeat Byte.x05 16)%list)%string)
    by reflexivity.
  split; [exact H|].
  exact (invoice_number_injective (repeat Byte.x05 32)
           (repeat Byte.x05 16 ++ repeat Byte.x05 16) H).
Defined.

(** ** One recipient per envelope *)

Section OneRecipient.
Context {K : KeyOps} {C : Aead} {KL : KeyLaws K}.

Lemma serialize_injective (P Q : PublicKey) :
  serialize P = serialize Q -> P = Q.
Proof.
  intros H. pose proof (PublicKey_new_serialize P) as HP.
  rewrite H, PublicKey_new_serialize in HP. now injection HP.
Qed.

Lemma decrypt_ok_recipient (message plaintext : bytes)
    (recipient : PrivateKey) :
  decrypt message recipient = Ok plaintext ->
  py_slice (Some 37) (Some 70) message = serialize (public_key recipient).
Proof.
  rewrite decrypt_of_body. intros H.
  destruct (bytes_eq_dec (py_slice None (Some 4) message) VERSION) as [Hv|Hv].
  2:{ now rewrite decrypt_body_version in H. }
  destruct (bytes_eq_dec (py_slice (Some 37) (Some 70) message)
              (serialize (public_key recipient))) as [Hr|Hr]; trivial.
  now rewrite decrypt_body_recipient in H.
Qed.

(** X12.  An envelope decrypts for one public key at most: if
    [decrypt] returns a plaintext for two private keys, the two have the
    same public key. *)
Theorem decrypt_unique_recipient (message plaintext1 plaintext2 : bytes)
    (recipient1 recipient2 : PrivateKey) :
  decrypt message recipient1 = Ok plaintext1 ->
  decrypt message recipient2 = Ok plaintext2 ->
  public_key recipient1 = public_key recipient2.
Proof.
  intros H1 H2. apply serialize_injective.
  apply decrypt_ok_recipient in H1. apply decrypt_ok_recipient in H2.
  congruence.
Qed.

End OneRecipient.

(** The sample envelope, decrypted twice by its recipient. *)
Lemma decrypt_unique_recipient_witness :
  decrypt Samples.envelope Samples.B_priv = Ok Samples.message /\
  public_key Samples.B_priv = public_key Samples.B_priv.
Proof.
  assert (H : decrypt Samples.envelope Samples.B_priv = Ok Samples.message)
    by (vm_compute; reflexivity).
  split; [exact H|].
  exact (@decrypt_unique_recipient Toy.toy_keys Toy.toy_aead
           ToyLaws.toy_key_laws Samples.envelope Samples.message
           Samples.message Samples.B_priv Samples.B_priv H H).
Defined.
